(** * Adapter composition in a BERT block: the interpreter of
      [src/transformers/adapter_bert.py] and its properties.

    The development embeds [BertAdaptersBaseMixin] (the pre-parameter
    resolver [get_adapter_preparams], the three interpreters [adapter_stack],
    [adapter_fusion], [adapter_split] and the entry point [adapters_forward])
    and [BertModelAdaptersMixin.get_fusion_regularization_loss].

    - Tensors are nested lists over an arbitrary scalar type; slicing,
      concatenation and the stacking of up-projections are defined on them.
    - The neural modules owned by a block (layer norm, adapters, fusion
      layers) are functions stored in the block, the registries are finite
      maps by name, as the Python object holds module dictionaries.
    - A computation returns a Python exception or a value, together with the
      log of the calls it issued into the resolver and into the modules.
    - A local variable that may be unbound ([up]) is an [option]; reading it
      unbound is [UnboundLocalError].
    - The composition blocks and their methods [last], [first], [flatten] come
      from [adapter_composition], which is imported by the source but is not
      at hand; they follow the specification. *)

From stdpp Require Import base decidable option list gmap strings fin_maps sets pretty functions.
From Stdlib Require Import ZArith Lia Floats Ascii.

Set Warnings "-register-all".

Open Scope string_scope.
Open Scope list_scope.

(** ** Python exceptions and the call log *)

(** The exceptions the interpreter can end in.  The two [ValueError]s the
    source raises with different messages are kept apart, since the
    specification names them separately. *)
Inductive PyError :=
| TooDeep (class_name : string) (lvl : nat)
    (* ValueError("Specified adapter setup is too deep. Cannot have {} at level {}") *)
| InvalidNesting (inner outer : string)
    (* ValueError("Invalid adapter setup. Cannot nest {} in {}") *)
| InvalidSetup
    (* ValueError(f"Invalid adapter setup {adapter_setup}") *)
| UnboundLocalError (variable : string)
| TypeError      (* subscripting None, iterating a non-block, hashing a block *)
| KeyError (key : string)
| IndexError
| AttributeError.

(** The place a call to [get_adapter_preparams] is made from. *)
Inductive Site := InStack | InFuse | InSplit.

(** Calls into the pre-parameter resolver and into the modules of the block,
    in the order they are issued. *)
Inductive Event :=
| EvPreparams (site : Site) (adapter : string)
    (* self.config.adapters.get(adapter) followed by get_adapter_preparams *)
| EvAdapter (name : string)       (* self.adapter_modules[name](...) *)
| EvFusion (name : string).       (* self.adapter_fusion_layer[name](...) *)

(** The pre-parameters resolved by a Fuse or a Split for itself, as opposed
    to those a Stack resolves for each of its adapters. *)
Definition own_preparams (e : Event) : bool :=
  match e with
  | EvPreparams InFuse _ | EvPreparams InSplit _ => true
  | _ => false
  end.

Global Instance Site_eq_dec : EqDecision Site.
Proof. solve_decision. Defined.
Global Instance Event_eq_dec : EqDecision Event.
Proof. solve_decision. Defined.
Global Instance PyError_eq_dec : EqDecision PyError.
Proof. solve_decision. Defined.

(** A computation: the calls it made, and an exception or a value. *)
Definition M (A : Type) : Type := (list Event * (PyError + A))%type.

Definition ret {A} (a : A) : M A := ([], inr a).
Definition raise {A} (e : PyError) : M A := ([], inl e).
Definition emit (ev : Event) : M unit := ([ev], inr tt).
Definition bind {A B} (m : M A) (k : A -> M B) : M B :=
  match m with
  | (tr, inl e) => (tr, inl e)
  | (tr, inr a) => let '(tr', r) := k a in (tr ++ tr', r)
  end.

Definition calls {A} (m : M A) : list Event := fst m.
Definition outcome {A} (m : M A) : PyError + A := snd m.

Global Instance M_ret : MRet M := @ret.
Global Instance M_bind : MBind M := fun A B k m => bind m k.

(** ** Composition blocks *)

(** Modelled from the spec: [adapter_composition.AdapterCompositionBlock] and
    its subclasses [Stack], [Fuse], [Split] are imported but not part of the
    sources at hand.  Section 3 of the specification gives the variant: a bare
    adapter name, or a block with an ordered sequence of children; a [Fuse]
    carries the key of its fusion group, a [Split] its split index. *)
Inductive Block :=
| Leaf (name : string)
| Stack (children : list Block)
| Fuse (name : string) (children : list Block)
| Split (children : list Block) (split_index : Z).

(** [isinstance(b, AdapterCompositionBlock)] *)
Definition is_composition_block (b : Block) : bool :=
  match b with Leaf _ => false | _ => true end.

(** [isinstance(b, Fuse) or isinstance(b, Split)] *)
Definition is_fuse_or_split (b : Block) : bool :=
  match b with Fuse _ _ | Split _ _ => true | _ => false end.

(** [b.__class__.__name__] *)
Definition class_name (b : Block) : string :=
  match b with
  | Leaf _ => "str" | Stack _ => "Stack" | Fuse _ _ => "Fuse" | Split _ _ => "Split"
  end.

(** Modelled from the spec: [AdapterCompositionBlock.last] is not part of the
    sources at hand.  The specification speaks of "the last referenced
    adapter": the name reached by following last children; [None] stands for
    the [IndexError] of an empty child sequence. *)
Fixpoint last (b : Block) : option string :=
  match b with
  | Leaf n => Some n
  | Stack cs | Fuse _ cs | Split cs _ =>
      (fix go (l : list Block) : option string :=
         match l with
         | [] => None
         | c :: l' => match l' with [] => last c | _ :: _ => go l' end
         end) cs
  end.

(** Modelled from the spec: [AdapterCompositionBlock.first] is not part of the
    sources at hand; the name reached by following first children. *)
Fixpoint first (b : Block) : option string :=
  match b with
  | Leaf n => Some n
  | Stack cs | Fuse _ cs | Split cs _ =>
      match cs with [] => None | c :: _ => first c end
  end.

(** Modelled from the spec: [AdapterCompositionBlock.flatten] is not part of
    the sources at hand; "the flattened composition's adapter names" is the
    set of all names occurring in the tree. *)
Fixpoint flatten (b : Block) : gset string :=
  match b with
  | Leaf n => {[ n ]}
  | Stack cs | Fuse _ cs | Split cs _ =>
      (fix go (l : list Block) : gset string :=
         match l with
         | [] => ∅
         | c :: l' => flatten c ∪ go l'
         end) cs
  end.

(** [adapter_setup.name], an attribute of [Fuse] only. *)
Definition block_name (b : Block) : option string :=
  match b with Fuse n _ => Some n | _ => None end.

(** [adapter_setup.split_index], an attribute of [Split] only. *)
Definition block_split_index (b : Block) : option Z :=
  match b with Split _ k => Some k | _ => None end.

(** ** Adapter configuration *)

(** The keys of an adapter's configuration mapping that the block reads. *)
Record AdapterConfig := {
  residual_before_ln : bool;
  original_ln_before : bool;
  original_ln_after : bool;
}.

(** [self.config.adapter_fusion], present once fusion is configured. *)
Record FusionConfig := {
  query_before_ln : bool;
}.

(** ** Tensors and the block *)

Section Interpreter.

Context {R : Type} (radd : R -> R -> R).

(** A tensor of shape batch x sequence x hidden, and the stacked
    up-projections of shape batch x sequence x adapters x hidden. *)
Definition Tensor : Type := list (list (list R)).
Definition Tensor4 : Type := list (list (list (list R))).

(** [a + b] on tensors of one shape. *)
Definition tensor_add (a b : Tensor) : Tensor :=
  zip_with (zip_with (zip_with radd)) a b.

(** The bound of a Python slice: negative indices count from the end, and
    both ends are clipped to the length. *)
Definition slice_bound (k : Z) (len : nat) : nat :=
  Z.to_nat (if (k <? 0)%Z then Z.max 0 (Z.of_nat len + k) else Z.min k (Z.of_nat len)).

(** [t[:, :k, :]] and [t[:, k:, :]] *)
Definition slice_to (k : Z) (t : Tensor) : Tensor :=
  map (fun row => take (slice_bound k (length row)) row) t.
Definition slice_from (k : Z) (t : Tensor) : Tensor :=
  map (fun row => drop (slice_bound k (length row)) row) t.

(** [torch.cat(ts, dim=1)]: the sequences of each batch entry, one after the
    other. *)
Definition torch_cat_dim1 (ts : list Tensor) : Tensor :=
  match ts with
  | [] => []
  | t :: ts' => fold_left (zip_with app) ts' t
  end.

(** The batch and sequence extents of a list of tensors of one shape. *)
Definition batch_extent (ups : list Tensor) : nat :=
  length (default [] (head ups)).
Definition sequence_extent (ups : list Tensor) : nat :=
  length (default [] (head (default [] (head ups)))).

(** [torch.stack(ups).permute(1, 2, 0, 3)]: entry [b][s][a] of the result is
    entry [b][s] of the [a]-th stacked tensor; batch and sequence extents are
    those of the stacked tensors. *)
Definition torch_stack_permute (ups : list Tensor) : Tensor4 :=
  map (fun b =>
         map (fun s => map (fun t : Tensor => nth s (nth b t []) []) ups)
             (seq 0 (sequence_extent ups)))
      (seq 0 (batch_extent ups)).

(** An adapter module: [(hidden_states, residual_input)] to
    [(output, up)]; the gating scores in between are never read. *)
Definition Adapter : Type := Tensor -> Tensor -> Tensor * Tensor.

(** A fusion module: [(query, key, value, residual)] to the fused output. *)
Definition BertFusion : Type := option Tensor -> Tensor4 -> Tensor4 -> Tensor -> Tensor.

(** [self.config.adapters]: the configuration of every adapter by name and
    the active composition. *)
Record ModelAdaptersConfig := {
  adapters : gmap string AdapterConfig;
  active_setup : option Block;
}.

(** [self.config]: each attribute is present or not ([hasattr]). *)
Record Config := {
  config_adapters : option ModelAdaptersConfig;
  config_adapter_fusion : option FusionConfig;
}.

(** The block: a [BertSelfOutput] or [BertOutput] with the mixin. *)
Record BertAdaptersBaseMixin := {
  layer_norm : Tensor -> Tensor;
  adapter_modules : gmap string Adapter;
  adapter_fusion_layer : gmap string BertFusion;
  config : Config;
}.

(** ** The pre-parameter resolver *)

Definition get_adapter_preparams (self : BertAdaptersBaseMixin)
    (adapter_config : AdapterConfig) (hidden_states input_tensor : Tensor)
  : Tensor * option Tensor * Tensor :=
  let query : option Tensor := None in
  (* if adapter_config["residual_before_ln"]: residual = hidden_states *)
  let residual_early := hidden_states in
  let query :=
    match config_adapter_fusion (config self) with
    | Some f => if query_before_ln f then Some hidden_states else query
    | None => query
    end in
  let hidden_states :=
    if original_ln_before adapter_config
    then layer_norm self (tensor_add hidden_states input_tensor)
    else hidden_states in
  (* if not adapter_config["residual_before_ln"]: residual = hidden_states *)
  let residual :=
    if negb (residual_before_ln adapter_config) then hidden_states
    else residual_early in
  let query :=
    match config_adapter_fusion (config self) with
    | Some f => if negb (query_before_ln f) then Some hidden_states else query
    | None => query
    end in
  (hidden_states, query, residual).

(** [self.config.adapters.get(name)] followed by the call of
    [get_adapter_preparams]; a missing configuration is [None], which the
    resolver fails to subscript. *)
Definition resolve_preparams (self : BertAdaptersBaseMixin) (site : Site)
    (name : option string) (hidden_states input_tensor : Tensor)
  : M (Tensor * option Tensor * Tensor) :=
  match config_adapters (config self) with
  | None => raise AttributeError
  | Some cfgs =>
      match name with
      | None => raise IndexError
      | Some n =>
          _ ← emit (EvPreparams site n);
          match adapters cfgs !! n with
          | None => raise TypeError
          | Some adapter_config =>
              mret (get_adapter_preparams self adapter_config hidden_states input_tensor)
          end
      end
  end.

(** [adapter_layer(hidden_states, residual_input=residual)] *)
Definition call_adapter (name : string) (adapter_layer : Adapter)
    (hidden_states residual : Tensor) : M (Tensor * Tensor) :=
  _ ← emit (EvAdapter name);
  mret (adapter_layer hidden_states residual).

(** [self.adapter_fusion_layer[name](query, up_list, up_list, residual)] *)
Definition call_fusion (self : BertAdaptersBaseMixin) (name : option string)
    (query : option Tensor) (up_list : Tensor4) (residual : Tensor) : M Tensor :=
  match name with
  | None => raise AttributeError
  | Some n =>
      match (adapter_fusion_layer self !! n : option BertFusion) with
      | None => raise (KeyError n)
      | Some fusion => _ ← emit (EvFusion n); mret (fusion query up_list up_list residual)
      end
  end.

(** [xs[i]], raising [IndexError] out of range. *)
Definition index {A} (xs : list A) (i : nat) : M A :=
  match xs !! i with
  | Some x => mret x
  | None => raise IndexError
  end.

(** [block in self.adapter_modules] for a composition block.  The module
    dictionary hashes the key it is asked for; a composition block defines
    equality and no hash, so the test raises [TypeError] instead of answering.
    For a bare name the test is the lookup in [adapter_modules]. *)
Definition block_in_modules (adapter_block : Block) : M bool := raise TypeError.

(** ** The interpreters

    The three methods call each other along the tree; each iterates over the
    children of its block.  A bare name is never passed as [adapter_setup]:
    every call site tests the class first.  Each loop tests
    [child in self.adapter_modules] before its last case, so a child that is a
    block and was not taken by an earlier case ends the loop in [TypeError]
    there: the [ValueError] of case 3 in [adapter_fusion] and [adapter_split],
    and the silent case X of [adapter_stack], are reached by no block. *)

Fixpoint adapter_stack (self : BertAdaptersBaseMixin) (adapter_setup : Block)
    (hidden_states input_tensor : Tensor) (lvl : nat) {struct adapter_setup}
  : M (Tensor * Tensor) :=
  match adapter_setup with
  | Leaf _ => raise TypeError
  | Stack children | Fuse _ children | Split children _ =>
      (fix loop (layers : list Block) (hidden_states : Tensor) (up : option Tensor)
         : M (Tensor * Tensor) :=
         match layers with
         | [] =>
             (* return hidden_states, up *)
             match up with
             | Some up => mret (hidden_states, up)
             | None => raise (UnboundLocalError "up")
             end
         | adapter_stack_layer :: rest =>
             if is_composition_block adapter_stack_layer && (1 <=? lvl)%nat
             then raise (TooDeep (class_name adapter_stack_layer) lvl)
             else
               match adapter_stack_layer with
               | Fuse _ _ =>
                   hidden_states ← adapter_fusion self adapter_stack_layer hidden_states input_tensor 0;
                   loop rest hidden_states (Some hidden_states)
               | Split _ _ =>
                   hidden_states ← adapter_split self adapter_stack_layer hidden_states input_tensor 0;
                   loop rest hidden_states (Some hidden_states)
               | Leaf name =>
                   match adapter_modules self !! name with
                   | Some adapter_layer =>
                       '(hidden_states, _, residual) ←
                         resolve_preparams self InStack (Some name) hidden_states input_tensor;
                       '(hidden_states, up) ← call_adapter name adapter_layer hidden_states residual;
                       loop rest hidden_states (Some up)
                   | None => loop rest hidden_states up
                   end
               | Stack _ =>
                   (* elif adapter_stack_layer in self.adapter_modules *)
                   _ ← block_in_modules adapter_stack_layer;
                   loop rest hidden_states up
               end
         end) children hidden_states None
  end

with adapter_fusion (self : BertAdaptersBaseMixin) (adapter_setup : Block)
    (hidden_states input_tensor : Tensor) (lvl : nat) {struct adapter_setup}
  : M Tensor :=
  match adapter_setup with
  | Leaf _ => raise AttributeError
  | Stack children | Fuse _ children | Split children _ =>
      (* config of _last_ fused adapter is significant *)
      '(hidden_states, query, residual) ←
        resolve_preparams self InFuse (last adapter_setup) hidden_states input_tensor;
      up_list ←
        (fix loop (blocks : list Block) (up : option Tensor) (up_list : list Tensor)
           : M (list Tensor) :=
           match blocks with
           | [] => mret up_list
           | adapter_block :: rest =>
               up ←
                 match adapter_block with
                 | Stack _ =>
                     '(_, up) ← adapter_stack self adapter_block hidden_states input_tensor (lvl + 1);
                     mret (Some up)
                 | Leaf name =>
                     match adapter_modules self !! name with
                     | Some adapter_layer =>
                         '(_, up) ← call_adapter name adapter_layer hidden_states residual;
                         mret (Some up)
                     | None => mret up
                     end
                 | Fuse _ _ | Split _ _ =>
                     (* elif adapter_block in self.adapter_modules *)
                     _ ← block_in_modules adapter_block;
                     raise (InvalidNesting (class_name adapter_block) (class_name adapter_setup))
                 end;
               (* up_list.append(up) *)
               match up with
               | Some u => loop rest up (up_list ++ [u])
               | None => raise (UnboundLocalError "up")
               end
           end) children None [];
      if (0 <? length up_list)%nat
      then call_fusion self (block_name adapter_setup) query
                       (torch_stack_permute up_list) residual
      else mret hidden_states
  end

with adapter_split (self : BertAdaptersBaseMixin) (adapter_setup : Block)
    (hidden_states input_tensor : Tensor) (lvl : nat) {struct adapter_setup}
  : M Tensor :=
  match adapter_setup with
  | Leaf _ => raise AttributeError
  | Stack children | Fuse _ children | Split children _ =>
      (* config of _first_ of splitted adapters is significant *)
      '(hidden_states, query, residual) ←
        resolve_preparams self InSplit (first adapter_setup) hidden_states input_tensor;
      match block_split_index adapter_setup with
      | None => raise AttributeError
      | Some split_index =>
          let split_hidden_states :=
            [slice_to split_index hidden_states; slice_from split_index hidden_states] in
          let split_input_tensor :=
            [slice_to split_index input_tensor; slice_from split_index input_tensor] in
          let split_residual :=
            [slice_to split_index residual; slice_from split_index residual] in
          split_hidden_states ←
            (fix loop (blocks : list Block) (i : nat) (split_hidden_states : list Tensor)
               : M (list Tensor) :=
               match blocks with
               | [] => mret split_hidden_states
               | adapter_block :: rest =>
                   match adapter_block with
                   | Stack _ =>
                       h ← index split_hidden_states i;
                       x ← index split_input_tensor i;
                       '(_, up) ← adapter_stack self adapter_block h x (lvl + 1);
                       loop rest (S i) split_hidden_states
                   | Leaf name =>
                       match adapter_modules self !! name with
                       | Some adapter_layer =>
                           h ← index split_hidden_states i;
                           r ← index split_residual i;
                           '(h, _) ← call_adapter name adapter_layer h r;
                           loop rest (S i) (<[i := h]> split_hidden_states)
                       | None => loop rest (S i) split_hidden_states
                       end
                   | Fuse _ _ | Split _ _ =>
                       (* elif adapter_block in self.adapter_modules *)
                       _ ← block_in_modules adapter_block;
                       raise (InvalidNesting (class_name adapter_block) (class_name adapter_setup))
                   end
               end) children 0%nat split_hidden_states;
          mret (torch_cat_dim1 split_hidden_states)
      end
  end.

(** ** The loops by name

    The bodies of the three [for] loops above, as functions of the loop
    variables; each interpreter unfolds to its loop (see [adapter_stack_unfold],
    [adapter_fusion_unfold], [adapter_split_unfold]). *)

Fixpoint stack_loop (self : BertAdaptersBaseMixin) (input_tensor : Tensor) (lvl : nat)
    (layers : list Block) (hidden_states : Tensor) (up : option Tensor)
  : M (Tensor * Tensor) :=
  match layers with
  | [] =>
      match up with
      | Some up => mret (hidden_states, up)
      | None => raise (UnboundLocalError "up")
      end
  | adapter_stack_layer :: rest =>
      if is_composition_block adapter_stack_layer && (1 <=? lvl)%nat
      then raise (TooDeep (class_name adapter_stack_layer) lvl)
      else
        match adapter_stack_layer with
        | Fuse _ _ =>
            hidden_states ← adapter_fusion self adapter_stack_layer hidden_states input_tensor 0;
            stack_loop self input_tensor lvl rest hidden_states (Some hidden_states)
        | Split _ _ =>
            hidden_states ← adapter_split self adapter_stack_layer hidden_states input_tensor 0;
            stack_loop self input_tensor lvl rest hidden_states (Some hidden_states)
        | Leaf name =>
            match adapter_modules self !! name with
            | Some adapter_layer =>
                '(hidden_states, _, residual) ←
                  resolve_preparams self InStack (Some name) hidden_states input_tensor;
                '(hidden_states, up) ← call_adapter name adapter_layer hidden_states residual;
                stack_loop self input_tensor lvl rest hidden_states (Some up)
            | None => stack_loop self input_tensor lvl rest hidden_states up
            end
        | Stack _ =>
            _ ← block_in_modules adapter_stack_layer;
            stack_loop self input_tensor lvl rest hidden_states up
        end
  end.

(** One iteration of the loop of [adapter_fusion] up to [up_list.append(up)]:
    the new binding of [up]. *)
Definition fusion_child (self : BertAdaptersBaseMixin) (outer : string)
    (hidden_states input_tensor residual : Tensor) (lvl : nat)
    (adapter_block : Block) (up : option Tensor) : M (option Tensor) :=
  match adapter_block with
  | Stack _ =>
      '(_, up) ← adapter_stack self adapter_block hidden_states input_tensor (lvl + 1);
      mret (Some up)
  | Leaf name =>
      match adapter_modules self !! name with
      | Some adapter_layer =>
          '(_, up) ← call_adapter name adapter_layer hidden_states residual;
          mret (Some up)
      | None => mret up
      end
  | Fuse _ _ | Split _ _ =>
      _ ← block_in_modules adapter_block;
      raise (InvalidNesting (class_name adapter_block) outer)
  end.

Fixpoint fusion_loop (self : BertAdaptersBaseMixin) (outer : string)
    (hidden_states input_tensor residual : Tensor) (lvl : nat)
    (blocks : list Block) (up : option Tensor) (up_list : list Tensor)
  : M (list Tensor) :=
  match blocks with
  | [] => mret up_list
  | adapter_block :: rest =>
      up ← fusion_child self outer hidden_states input_tensor residual lvl adapter_block up;
      match up with
      | Some u =>
          fusion_loop self outer hidden_states input_tensor residual lvl rest up (up_list ++ [u])
      | None => raise (UnboundLocalError "up")
      end
  end.

Fixpoint split_loop (self : BertAdaptersBaseMixin) (outer : string)
    (split_input_tensor split_residual : list Tensor) (lvl : nat)
    (blocks : list Block) (i : nat) (split_hidden_states : list Tensor)
  : M (list Tensor) :=
  match blocks with
  | [] => mret split_hidden_states
  | adapter_block :: rest =>
      match adapter_block with
      | Stack _ =>
          h ← index split_hidden_states i;
          x ← index split_input_tensor i;
          '(_, up) ← adapter_stack self adapter_block h x (lvl + 1);
          split_loop self outer split_input_tensor split_residual lvl rest (S i)
                     split_hidden_states
      | Leaf name =>
          match adapter_modules self !! name with
          | Some adapter_layer =>
              h ← index split_hidden_states i;
              r ← index split_residual i;
              '(h, _) ← call_adapter name adapter_layer h r;
              split_loop self outer split_input_tensor split_residual lvl rest (S i)
                         (<[i := h]> split_hidden_states)
          | None =>
              split_loop self outer split_input_tensor split_residual lvl rest (S i)
                         split_hidden_states
          end
      | Fuse _ _ | Split _ _ =>
          _ ← block_in_modules adapter_block;
          raise (InvalidNesting (class_name adapter_block) outer)
      end
  end.

(** The children a block is iterated over. *)
Definition children_of (b : Block) : list Block :=
  match b with
  | Leaf _ => []
  | Stack cs | Fuse _ cs | Split cs _ => cs
  end.

(** ** The entry point of a block *)

(** [self.config.adapters.active_setup if hasattr(self.config, "adapters") else None] *)
Definition active_composition (self : BertAdaptersBaseMixin) : option Block :=
  match config_adapters (config self) with
  | Some a => active_setup a
  | None => None
  end.

(** The dispatch of [adapters_forward] on the class of the active
    composition. *)
Definition dispatch_setup (self : BertAdaptersBaseMixin) (adapter_setup : Block)
    (hidden_states input_tensor : Tensor) : M Tensor :=
  match adapter_setup with
  | Stack _ =>
      '(hidden_states, _) ← adapter_stack self adapter_setup hidden_states input_tensor 0;
      mret hidden_states
  | Fuse _ _ => adapter_fusion self adapter_setup hidden_states input_tensor 0
  | Split _ _ => adapter_split self adapter_setup hidden_states input_tensor 0
  | Leaf _ => raise InvalidSetup
  end.

(** [last_config = self.config.adapters.get(adapter_setup.last())] and the
    read of its key [original_ln_after]. *)
Definition last_config_ln_after (self : BertAdaptersBaseMixin) (adapter_setup : Block)
  : M bool :=
  match config_adapters (config self) with
  | None => raise AttributeError
  | Some cfgs =>
      match last adapter_setup with
      | None => raise IndexError
      | Some n =>
          match adapters cfgs !! n with
          | None => raise TypeError
          | Some last_config => mret (original_ln_after last_config)
          end
      end
  end.

Definition adapters_forward (self : BertAdaptersBaseMixin)
    (hidden_states input_tensor : Tensor) : M Tensor :=
  match active_composition self with
  | Some adapter_setup =>
      if bool_decide (0 < size (dom (adapter_modules self) ∩ flatten adapter_setup))%nat
      then
        hidden_states ← dispatch_setup self adapter_setup hidden_states input_tensor;
        ln_after ← last_config_ln_after self adapter_setup;
        if (ln_after : bool)
        then mret (layer_norm self (tensor_add hidden_states input_tensor))
        else mret hidden_states
      else mret (layer_norm self (tensor_add hidden_states input_tensor))
  | None => mret (layer_norm self (tensor_add hidden_states input_tensor))
  end.

(** What the entry appended for a child of a Fuse is: the up-projection of
    the adapter of a hosted name run on the resolved hidden states and
    residual, the up-projection a nested Stack returns, or, for a name that is
    not hosted, the value [up] still holds from the child before. *)
Definition child_up (self : BertAdaptersBaseMixin) (hidden_states input_tensor residual : Tensor)
    (lvl : nat) (c : Block) (previous : option Tensor) (u : Tensor) : Prop :=
  match c with
  | Leaf n =>
      match adapter_modules self !! n with
      | Some adapter_layer => u = (adapter_layer hidden_states residual).2
      | None => previous = Some u
      end
  | Stack _ =>
      exists hs, outcome (adapter_stack self c hidden_states input_tensor (lvl + 1)) = inr (hs, u)
  | Fuse _ _ | Split _ _ => False
  end.

(** The entries of [up_list] against the children, in order. *)
Fixpoint up_entries (self : BertAdaptersBaseMixin) (hidden_states input_tensor residual : Tensor)
    (lvl : nat) (cs : list Block) (previous : option Tensor) (ups : list Tensor) : Prop :=
  match cs, ups with
  | [], [] => True
  | c :: cs', u :: ups' =>
      child_up self hidden_states input_tensor residual lvl c previous u /\
      up_entries self hidden_states input_tensor residual lvl cs' (Some u) ups'
  | _, _ => False
  end.

(** The reading of the specification of a Split, by hand: each child
    processes its own segment (a nested Stack by recursion one level down, a
    hosted name by its adapter, a name that is not hosted not at all). *)
Definition process_segment (self : BertAdaptersBaseMixin) (c : Block)
    (hidden_states input_tensor residual : Tensor) (lvl : nat) : M Tensor :=
  match c with
  | Stack _ =>
      '(hidden_states, _) ← adapter_stack self c hidden_states input_tensor (lvl + 1);
      mret hidden_states
  | Leaf n =>
      match adapter_modules self !! n with
      | Some adapter_layer =>
          '(hidden_states, _) ← call_adapter n adapter_layer hidden_states residual;
          mret hidden_states
      | None => mret hidden_states
      end
  | Fuse _ _ | Split _ _ => raise (InvalidNesting (class_name c) "Split")
  end.

Definition split_by_hand (self : BertAdaptersBaseMixin) (c0 c1 : Block) (k : Z)
    (hidden_states input_tensor : Tensor) (lvl : nat) : M Tensor :=
  '(hidden_states, _, residual) ←
    resolve_preparams self InSplit (first (Split [c0; c1] k)) hidden_states input_tensor;
  prefix ← process_segment self c0 (slice_to k hidden_states) (slice_to k input_tensor)
                           (slice_to k residual) lvl;
  suffix ← process_segment self c1 (slice_from k hidden_states) (slice_from k input_tensor)
                           (slice_from k residual) lvl;
  mret (torch_cat_dim1 [prefix; suffix]).

(** A child that is a bare name not registered in the block. *)
Definition absent_leaf (self : BertAdaptersBaseMixin) (b : Block) : Prop :=
  exists n, b = Leaf n /\ adapter_modules self !! n = None.

(** The calls a Stack makes for a child that is a bare name: none when the
    block does not hold the name. *)
Definition leaf_calls (self : BertAdaptersBaseMixin) (b : Block) : list Event :=
  match b with
  | Leaf n =>
      match adapter_modules self !! n with
      | Some _ => [EvPreparams InStack n; EvAdapter n]
      | None => []
      end
  | _ => []
  end.

End Interpreter.

(** ** The fusion regularization loss *)

Module Regularization.
Section Loss.

(** The scalars of the weights: the constants [0.0], [1.0], [0.01] and the
    three operations the loss uses. *)
Context {R : Type} (zero one c001 : R) (radd rsub rmul : R -> R -> R).

Definition Matrix : Type := list (list R).

(** [torch.zeros((n, m))] *)
Definition zeros (n m : nat) : Matrix := replicate n (replicate m zero).

(** [m.fill_diagonal_(v)] *)
Definition fill_diagonal (v : R) (m : Matrix) : Matrix :=
  imap (fun i row => <[i := v]> row) m.

(** [a - b], [m.pow(2)] and [m.sum()] *)
Definition matrix_sub (a b : Matrix) : Matrix := zip_with (zip_with rsub) a b.
Definition matrix_pow2 (m : Matrix) : Matrix := map (map (fun x => rmul x x)) m.
Definition matrix_sum (m : Matrix) : R := fold_left radd (concat m) zero.

(** A fusion module, as far as the loss reads it: the weight of its value
    projection, when the module has one ([hasattr(layer_fusion, "value")]). *)
Record BertFusion := {
  value_weight : option Matrix;
}.

(** A layer of the encoder: the fusion dictionaries of its two blocks
    ([v.output] and [v.attention.output]), in insertion order. *)
Record BertLayer := {
  output_adapter_fusion_layer : list (string * BertFusion);
  attention_output_adapter_fusion_layer : list (string * BertFusion);
}.

Record BertModel := {
  hidden_size : nat;
  encoder_layer : list BertLayer;
}.

(** [reg_loss += 0.01 * (target - layer_fusion.value.weight).pow(2).sum()]
    over the items of one dictionary. *)
Definition add_fusion_losses (target : Matrix) (items : list (string * BertFusion))
    (reg_loss : R) : R :=
  fold_left
    (fun reg_loss item =>
       match value_weight (snd item) with
       | Some weight =>
           radd reg_loss (rmul c001 (matrix_sum (matrix_pow2 (matrix_sub target weight))))
       | None => reg_loss
       end)
    items reg_loss.

Definition get_fusion_regularization_loss (self : BertModel) : R :=
  let reg_loss := zero in
  let target := fill_diagonal one (zeros (hidden_size self) (hidden_size self)) in
  fold_left
    (fun reg_loss v =>
       let reg_loss := add_fusion_losses target (output_adapter_fusion_layer v) reg_loss in
       add_fusion_losses target (attention_output_adapter_fusion_layer v) reg_loss)
    (encoder_layer self) reg_loss.

(** The reading of the specification: the identity matrix, the squared
    Frobenius distance of two matrices, and the value weights of all fusion
    modules of the model in the order the layers hold them. *)
Definition identity_matrix (n : nat) : Matrix :=
  map (fun i => map (fun j => if decide (i = j) then one else zero) (seq 0 n)) (seq 0 n).

Definition squared_frobenius_distance (a b : Matrix) : R :=
  fold_left radd
    (concat (zip_with (zip_with (fun x y => rmul (rsub x y) (rsub x y))) a b)) zero.

Definition fusion_modules (self : BertModel) : list BertFusion :=
  flat_map (fun v => map snd (output_adapter_fusion_layer v)
                     ++ map snd (attention_output_adapter_fusion_layer v))
           (encoder_layer self).

Definition value_weights (self : BertModel) : list Matrix :=
  omap value_weight (fusion_modules self).

End Loss.
End Regularization.


(** [c] is a bare name that the block does not hold, as a test. *)
Definition absent_leafb {R : Type} (self : BertAdaptersBaseMixin (R := R)) (c : Block) : bool :=
  match c with
  | Leaf n => bool_decide (adapter_modules self !! n = None)
  | _ => false
  end.

(** ** The registries of a block and their lifecycle

    [add_adapter], [add_fusion_layer] and [enable_adapters] of
    [BertAdaptersBaseMixin], and the mixins of the layer and of the encoder
    that forward to them. *)

(** The exceptions these methods and the head methods end in. *)
Inductive Raised :=
| RaisedAttributeError (message : string)
| RaisedKeyError (key : string)
| RaisedValueError (message : string)
| RaisedZeroDivisionError.

Global Instance Raised_eq_dec : EqDecision Raised.
Proof. solve_decision. Defined.

(** The keys of an adapter's configuration mapping that the registry methods
    read (the interpreter reads those of [AdapterConfig]). *)
Record AdapterSettings := {
  mh_adapter : bool;
  output_adapter : bool;
  reduction_factor : Z;
  ln_before : bool;
  ln_after : bool;
  non_linearity : string;
  adapter_residual_before_ln : bool;
  leave_out : option (list Z);      (* the key may be missing *)
}.

(** [adapter_config[key]] for the key of an adapter location. *)
Definition location_enabled (s : AdapterSettings) (key : string) : option bool :=
  if decide (key = "mh_adapter") then Some (mh_adapter s)
  else if decide (key = "output_adapter") then Some (output_adapter s)
  else None.

(** [s.split(",")] and [",".join(names)] *)
Fixpoint split_comma (s : string) : list string :=
  match s with
  | EmptyString => [EmptyString]
  | String c rest =>
      if decide (c = ","%char) then EmptyString :: split_comma rest
      else match split_comma rest with
           | piece :: pieces => String c piece :: pieces
           | [] => [String c EmptyString]
           end
  end.

Fixpoint join_comma (names : list string) : string :=
  match names with
  | [] => EmptyString
  | name :: rest =>
      match rest with
      | [] => name
      | _ :: _ => name +:+ String ","%char (join_comma rest)
      end
  end.

(** The [requires_grad] flags of the parameters of the modules in the two
    dictionaries of a block, by key. *)
Record BlockParameters := {
  adapter_parameters : gmap string (list bool);
  fusion_parameters : gmap string (list bool);
}.

(** [for param in module.parameters(): param.requires_grad = True] *)
Definition unfreeze (module : list bool) : list bool := map (fun _ => true) module.

Definition unfreeze_at (key : string) (modules : gmap string (list bool))
  : gmap string (list bool) :=
  match modules !! key with
  | Some module => <[key := unfreeze module]> modules
  | None => modules
  end.

(** [BertAdaptersBaseMixin.enable_adapters]: the adapters of the flattened
    setup that the block holds, then the fusion layer of the setup when it is
    a Fuse and of every child that is a Fuse. *)
Definition enable_adapters (self : BlockParameters) (adapter_setup : Block)
    (unfreeze_adapters unfreeze_fusion : bool) : BlockParameters :=
  let adapter_parameters :=
    if unfreeze_adapters
    then set_fold unfreeze_at (adapter_parameters self) (flatten adapter_setup)
    else adapter_parameters self in
  let fusion_parameters :=
    if unfreeze_fusion
    then
      let fusion_parameters :=
        match adapter_setup with
        | Fuse name _ => unfreeze_at name (fusion_parameters self)
        | _ => fusion_parameters self
        end in
      fold_left
        (fun fusion_parameters sub_setup =>
           match sub_setup with
           | Fuse name _ => unfreeze_at name fusion_parameters
           | _ => fusion_parameters
           end)
        (children_of adapter_setup) fusion_parameters
    else fusion_parameters self in
  {| adapter_parameters := adapter_parameters; fusion_parameters := fusion_parameters |}.

(** The parameters of a layer: those of [attention.output] and of [output]. *)
Record LayerParameters := {
  attention_output_parameters : BlockParameters;
  output_parameters : BlockParameters;
}.

(** [BertLayerAdaptersMixin.enable_adapters] *)
Definition BertLayer_enable_adapters (self : LayerParameters) (adapter_setup : Block)
    (unfreeze_adapters unfreeze_attention : bool) : LayerParameters :=
  {| attention_output_parameters :=
       enable_adapters (attention_output_parameters self) adapter_setup
                       unfreeze_adapters unfreeze_attention;
     output_parameters :=
       enable_adapters (output_parameters self) adapter_setup
                       unfreeze_adapters unfreeze_attention |}.

(** [BertEncoderAdaptersMixin.enable_adapters] *)
Definition BertEncoder_enable_adapters (layers : list LayerParameters) (adapter_setup : Block)
    (unfreeze_adapters unfreeze_attention : bool) : list LayerParameters :=
  map (fun layer => BertLayer_enable_adapters layer adapter_setup
                      unfreeze_adapters unfreeze_attention) layers.

(** The fusion layers [enable_adapters] reaches from a setup: that of the
    setup itself when it is a Fuse, and those of its children that are. *)
Definition reaches_fusion (adapter_setup : Block) (key : string) : bool :=
  bool_decide (block_name adapter_setup = Some key)
  || existsb (fun c => bool_decide (block_name c = Some key)) (children_of adapter_setup).

(** A name without a comma. *)
Definition comma_free (s : string) : Prop := split_comma s = [s].

(** The flags of [after] are those of [before] with some of them raised: the
    same keys, the same number of parameters, and no flag lowered. *)
Definition raised_flags (before after : gmap string (list bool)) : Prop :=
  forall key,
    match before !! key, after !! key with
    | Some b, Some a => Forall2 (fun x y => x = true -> y = true) b a
    | None, None => True
    | _, _ => False
    end.

Section Registry.

Context {R : Type}.

(** What the methods take from outside this file: the remaining keys of the
    configuration of each adapter (the configuration of [n] exists when the
    model lists [n]), [self.config.hidden_size], the constructors of the two
    module classes, and the outcome of
    [self.config.adapters.common_config_value(names, key)]: the truth value of
    what it returns, or the exception it ends in (the configuration class
    raises when the named adapters do not agree on the key). *)
Variable settings : string -> AdapterSettings.
Variable hidden_size : Z.
Variable Adapter_init : Z -> Z -> bool -> bool -> string -> bool -> Adapter (R := R).
Variable BertFusion_init : Config -> BertFusion (R := R).
Variable common_config_value : ModelAdaptersConfig -> list string -> string -> Raised + bool.

(** A method that returns nothing: the object after the call, and the
    exception the call ended in, if any. *)
Definition Mutation (A : Type) : Type := (A * option Raised)%type.

(** The module [add_adapter] constructs from a configuration:
    [Adapter(input_size=..., down_sample=hidden_size // reduction_factor, ...)] *)
Definition new_adapter (adapter_config : AdapterSettings) : Adapter (R := R) :=
  Adapter_init hidden_size
    (hidden_size `div` reduction_factor adapter_config)%Z
    (ln_before adapter_config) (ln_after adapter_config)
    (non_linearity adapter_config)
    (adapter_residual_before_ln adapter_config).

(** [BertAdaptersBaseMixin.add_adapter], for the block whose
    [adapter_config_key] is [key]. *)
Definition add_adapter (key : string) (self : BertAdaptersBaseMixin (R := R))
    (adapter_name : string) : Mutation (BertAdaptersBaseMixin (R := R)) :=
  match config_adapters (config self) with
  | None => (self, Some (RaisedAttributeError "adapters"))
  | Some cfgs =>
      match adapters cfgs !! adapter_name with
      | None => (self, None)
      | Some _ =>
          let adapter_config := settings adapter_name in
          match location_enabled adapter_config key with
          | None => (self, Some (RaisedKeyError key))
          | Some false => (self, None)
          | Some true =>
              if decide (reduction_factor adapter_config = 0)%Z
              then (self, Some RaisedZeroDivisionError)
              else
                let adapter := new_adapter adapter_config in
                ({| layer_norm := layer_norm self;
                    adapter_modules := <[adapter_name := adapter]> (adapter_modules self);
                    adapter_fusion_layer := adapter_fusion_layer self;
                    config := config self |}, None)
          end
      end
  end.

(** [BertAdaptersBaseMixin.add_fusion_layer]: the names as a list or as one
    comma-separated string. *)
Definition add_fusion_layer (key : string) (self : BertAdaptersBaseMixin (R := R))
    (adapter_names : list string + string) : Mutation (BertAdaptersBaseMixin (R := R)) :=
  let adapter_names :=
    match adapter_names with
    | inl names => names
    | inr joined => split_comma joined
    end in
  match config_adapters (config self) with
  | None => (self, Some (RaisedAttributeError "adapters"))
  | Some cfgs =>
      match common_config_value cfgs adapter_names key with
      | inl e => (self, Some e)
      | inr true =>
          ({| layer_norm := layer_norm self;
              adapter_modules := adapter_modules self;
              adapter_fusion_layer :=
                <[join_comma adapter_names := BertFusion_init (config self)]>
                  (adapter_fusion_layer self);
              config := config self |}, None)
      | inr false => (self, None)
      end
  end.

(** A layer: its blocks [attention.output] ([BertSelfOutput], key
    ["mh_adapter"]) and [output] ([BertOutput], key ["output_adapter"]). *)
Record BertLayer := {
  attention_output : BertAdaptersBaseMixin (R := R);
  output : BertAdaptersBaseMixin (R := R);
}.

(** Two calls on the two blocks of a layer, the second only when the first
    returned. *)
Definition on_both_blocks
    (method : string -> BertAdaptersBaseMixin (R := R) -> Mutation (BertAdaptersBaseMixin (R := R)))
    (self : BertLayer) : Mutation BertLayer :=
  match method "mh_adapter" (attention_output self) with
  | (attention_output', Some e) =>
      ({| attention_output := attention_output'; output := output self |}, Some e)
  | (attention_output', None) =>
      let '(output', e) := method "output_adapter" (output self) in
      ({| attention_output := attention_output'; output := output' |}, e)
  end.

(** [BertLayerAdaptersMixin.add_adapter] and [.add_fusion_layer] *)
Definition BertLayer_add_adapter (self : BertLayer) (adapter_name : string)
  : Mutation BertLayer :=
  on_both_blocks (fun key block => add_adapter key block adapter_name) self.

Definition BertLayer_add_fusion_layer (self : BertLayer)
    (adapter_names : list string + string) : Mutation BertLayer :=
  on_both_blocks (fun key block => add_fusion_layer key block adapter_names) self.

(** The encoder: its layers and the configuration object of the model. *)
Record BertEncoder := {
  layer : list BertLayer;
  encoder_config : Config;
}.

(** [for i, layer in enumerate(self.layer)] with a call on the layers that
    [visit] selects; the loop ends at the first exception. *)
Fixpoint for_layers (visit : nat -> bool) (method : BertLayer -> Mutation BertLayer)
    (i : nat) (layers : list BertLayer) : Mutation (list BertLayer) :=
  match layers with
  | [] => ([], None)
  | l :: rest =>
      if visit i
      then match method l with
           | (l', Some e) => (l' :: rest, Some e)
           | (l', None) =>
               let '(rest', e) := for_layers visit method (S i) rest in
               (l' :: rest', e)
           end
      else
        let '(rest', e) := for_layers visit method (S i) rest in
        (l :: rest', e)
  end.

(** [BertEncoderAdaptersMixin.add_adapter] *)
Definition BertEncoder_add_adapter (self : BertEncoder) (adapter_name : string)
  : Mutation BertEncoder :=
  match config_adapters (encoder_config self) with
  | None => (self, Some (RaisedAttributeError "adapters"))
  | Some cfgs =>
      match adapters cfgs !! adapter_name with
      | None => (self, Some (RaisedAttributeError "get"))
      | Some _ =>
          let leave_out := default [] (leave_out (settings adapter_name)) in
          let '(layers, e) :=
            for_layers (fun i => bool_decide (Z.of_nat i ∉ leave_out))
                       (fun l => BertLayer_add_adapter l adapter_name)
                       0 (layer self) in
          ({| layer := layers; encoder_config := encoder_config self |}, e)
      end
  end.

(** [BertEncoderAdaptersMixin.add_fusion_layer] *)
Definition BertEncoder_add_fusion_layer (self : BertEncoder)
    (adapter_names : list string + string) : Mutation BertEncoder :=
  let '(layers, e) :=
    for_layers (fun _ => true) (fun l => BertLayer_add_fusion_layer l adapter_names)
               0 (layer self) in
  ({| layer := layers; encoder_config := encoder_config self |}, e).

(** Every block of the encoder carries the configuration object of the
    model. *)
Definition shares_config (self : BertEncoder) : Prop :=
  Forall (fun l => config (attention_output l) = encoder_config self /\
                   config (output l) = encoder_config self) (layer self).

End Registry.

(** ** Prediction heads

    [BertModelHeadsMixin]: the dictionary of heads, the active head and the
    label dictionaries of the model configuration. *)

Module Heads.

(** A Python [dict]: the items in insertion order, with distinct keys. *)
Section Dict.

Context {K V : Type} `{EqDecision K}.

Definition Dict : Type := list (K * V).

(** [d.get(k)] *)
Fixpoint dict_get (d : Dict) (k : K) : option V :=
  match d with
  | [] => None
  | (k', v) :: rest => if decide (k = k') then Some v else dict_get rest k
  end.

(** [d[k] = v]: an existing key keeps its position. *)
Fixpoint dict_set (d : Dict) (k : K) (v : V) : Dict :=
  match d with
  | [] => [(k, v)]
  | (k', v') :: rest =>
      if decide (k = k') then (k, v) :: rest else (k', v') :: dict_set rest k v
  end.

(** [list(d.values())] *)
Definition dict_values (d : Dict) : list V := map snd d.

(** [{key(x): value(x) for x in xs}] *)
Definition dict_comprehension {A} (key : A -> K) (value : A -> V) (xs : list A) : Dict :=
  fold_left (fun d x => dict_set d (key x) (value x)) xs [].

End Dict.

Global Arguments Dict : clear implicits.

(** [range(n)] *)
Definition range (n : Z) : list Z := map Z.of_nat (seq 0 (Z.to_nat n)).

(** [{"LABEL_" + str(num): num for num in range(n)}] *)
Definition default_label2id (n : Z) : Dict string Z :=
  dict_comprehension (fun num => "LABEL_" +:+ pretty num) (fun num => num) (range n).

(** [{id_: label for label, id_ in label2id.items()}] *)
Definition invert_labels (label2id : Dict string Z) : Dict Z string :=
  dict_comprehension snd fst label2id.

(** The keys of the configuration dictionary of a head that the mixin reads;
    a key may be missing, and ["label2id"] may hold [None]. *)
Record HeadConfig := {
  head_type : string;
  num_labels : option Z;
  num_choices : option Z;
  label2id : option (option (Dict string Z));
}.

(** [head.config["label2id"] = labels] *)
Definition set_label2id (c : HeadConfig) (labels : Dict string Z) : HeadConfig :=
  {| head_type := head_type c; num_labels := num_labels c; num_choices := num_choices c;
     label2id := Some (Some labels) |}.

Section Mixin.

Context {Outputs Mask Kwargs : Type}.

(** A head module: its name, its configuration dictionary (an object of the
    heap, shared with [self.config.prediction_heads]) and its forward pass. *)
Record PredictionHead := {
  name : string;
  head_config : nat;
  head_forward : Outputs -> option Mask -> bool -> Kwargs -> Outputs;
}.

Record BertModelHeadsMixin := {
  heap : nat -> HeadConfig;                 (* the configuration dictionaries *)
  heads : gmap string PredictionHead;       (* self.heads *)
  prediction_heads : gmap string nat;       (* self.config.prediction_heads *)
  _active_head : option string;             (* self._active_head *)
  config_label2id : option (Dict string Z); (* self.config.label2id *)
  config_id2label : option (Dict Z string); (* self.config.id2label *)
}.

(** A method that returns nothing: the model after the call and the exception
    the call ended in, if any. *)
Definition Mutation : Type := (BertModelHeadsMixin * option Raised)%type.

(** [get_labels_dict] *)
Definition get_labels_dict (self : BertModelHeadsMixin) (head_name : option string)
  : Raised + option (Dict Z string) :=
  let head_name :=
    match head_name with
    | None => _active_head self
    | Some n => Some n
    end in
  match head_name with
  | None => inl (RaisedValueError "No head name given and no active head in the model")
  | Some n =>
      match heads self !! n with
      | None => inl (RaisedKeyError n)
      | Some head =>
          match label2id (heap self (head_config head)) with
          | None => inr None
          | Some None => inl (RaisedAttributeError "items")
          | Some (Some labels) => inr (Some (invert_labels labels))
          end
      end
  end.

(** [get_labels] *)
Definition get_labels (self : BertModelHeadsMixin) (head_name : option string)
  : Raised + option (list string) :=
  match get_labels_dict self head_name with
  | inl e => inl e
  | inr None => inr None
  | inr (Some label_dict) => inr (Some (dict_values label_dict))
  end.

(** The setter of the property [active_head]. *)
Definition set_active_head (self : BertModelHeadsMixin) (head_name : option string)
  : Mutation :=
  let self :=
    {| heap := heap self; heads := heads self; prediction_heads := prediction_heads self;
       _active_head := head_name;
       config_label2id := config_label2id self; config_id2label := config_id2label self |} in
  match head_name with
  | None => (self, None)
  | Some n =>
      match heads self !! n with
      | None => (self, None)
      | Some head =>
          match label2id (heap self (head_config head)) with
          | None => (self, Some (RaisedKeyError "label2id"))
          | Some labels =>
              let self :=
                {| heap := heap self; heads := heads self;
                   prediction_heads := prediction_heads self;
                   _active_head := _active_head self;
                   config_label2id := labels; config_id2label := config_id2label self |} in
              match get_labels_dict self (Some n) with
              | inl e => (self, Some e)
              | inr id2label =>
                  ({| heap := heap self; heads := heads self;
                      prediction_heads := prediction_heads self;
                      _active_head := _active_head self;
                      config_label2id := config_label2id self;
                      config_id2label := id2label |}, None)
              end
          end
      end
  end.

(** The labels [add_prediction_head] writes into a configuration that has
    none: those of ["num_labels"], then those of ["num_choices"]. *)
Definition fill_label2id (c : HeadConfig) : HeadConfig :=
  match label2id c with
  | Some (Some _) => c
  | None | Some None =>
      let c :=
        match num_labels c with
        | Some n => set_label2id c (default_label2id n)
        | None => c
        end in
      match num_choices c with
      | Some n => set_label2id c (default_label2id n)
      | None => c
      end
  end.

(** [add_prediction_head] *)
Definition add_prediction_head (self : BertModelHeadsMixin) (head : PredictionHead)
    (overwrite_ok : bool) : Mutation :=
  if bool_decide (heads self !! name head = None) || overwrite_ok
  then
    let self :=
      {| heap := <[head_config head := fill_label2id (heap self (head_config head))]> (heap self);
         heads := <[name head := head]> (heads self);
         prediction_heads := <[name head := head_config head]> (prediction_heads self);
         _active_head := _active_head self;
         config_label2id := config_label2id self; config_id2label := config_id2label self |} in
    set_active_head self (Some (name head))
  else
    (self, Some (RaisedValueError
                   ("Model already contains a head with name '" +:+ name head
                    +:+ "'. Use overwrite_ok=True to force overwrite."))).

(** [get_prediction_heads_config] *)
Definition get_prediction_heads_config (self : BertModelHeadsMixin) : gmap string nat :=
  head_config <$> heads self.

(** The truth value of a name or [None]. *)
Definition truthy (head_name : option string) : bool :=
  match head_name with
  | None | Some EmptyString => false
  | Some _ => true
  end.

(** [forward_head] *)
Definition forward_head (self : BertModelHeadsMixin) (outputs : Outputs)
    (head_name : option string) (attention_mask : option Mask) (return_dict : bool)
    (kwargs : Kwargs) : Raised + Outputs :=
  let head_name := if truthy head_name then head_name else _active_head self in
  match head_name with
  | None | Some EmptyString => inr outputs
  | Some n =>
      match heads self !! n with
      | None => inl (RaisedValueError ("Unknown head_name '" +:+ n +:+ "'"))
      | Some head => inr (head_forward head outputs attention_mask return_dict kwargs)
      end
  end.

End Mixin.
End Heads.

(** [self.config.prediction_heads] lists the heads of the model, each with its
    configuration object. *)
Definition Heads_consistent {Outputs Mask Kwargs : Type}
    (self : Heads.BertModelHeadsMixin (Outputs := Outputs) (Mask := Mask) (Kwargs := Kwargs))
  : Prop :=
  Heads.prediction_heads self = Heads.head_config <$> Heads.heads self.

(** ** A concrete block

    A block over integer tensors that hosts the adapters [a] and [b] and the
    fusion group [a,b]; the adapter [c] is configured in the model but left
    out of this block.  Used to run the interpreters on explicit inputs. *)

Module Examples.

Definition shift (c : Z) (t : Tensor (R := Z)) : Tensor (R := Z) :=
  map (map (map (Z.add c))) t.

Definition ex_layer_norm : Tensor (R := Z) -> Tensor (R := Z) := shift 1000.

(** The up-projection adds [c]; the output adds the residual to it. *)
Definition ex_adapter (c : Z) : Adapter (R := Z) :=
  fun hidden_states residual =>
    (tensor_add Z.add (shift c hidden_states) residual, shift c hidden_states).

(** Sums the up-projections along the adapter axis and adds the residual. *)
Definition ex_fusion : BertFusion (R := Z) :=
  fun _ _ value residual =>
    tensor_add Z.add
      (map (map (fun ups => match ups with
                            | [] => []
                            | u :: us => fold_left (zip_with Z.add) us u
                            end)) value)
      residual.

Definition cfg_before : AdapterConfig :=
  {| residual_before_ln := true; original_ln_before := true; original_ln_after := false |}.
Definition cfg_after : AdapterConfig :=
  {| residual_before_ln := false; original_ln_before := false; original_ln_after := true |}.

Definition ex_adapters (setup : option Block) : ModelAdaptersConfig :=
  {| adapters := <["a" := cfg_before]> (<["b" := cfg_before]> (<["c" := cfg_after]> ∅));
     active_setup := setup |}.

Definition ex_block (setup : option Block) : BertAdaptersBaseMixin (R := Z) :=
  {| layer_norm := ex_layer_norm;
     adapter_modules := <["a" := ex_adapter 1]> (<["b" := ex_adapter 2]> ∅);
     adapter_fusion_layer := <["a,b" := ex_fusion]> ∅;
     config :=
       {| config_adapters := Some (ex_adapters setup);
          config_adapter_fusion := Some {| query_before_ln := true |} |} |}.

Definition ex_hidden : Tensor (R := Z) := [[[1; 2]; [3; 4]; [5; 6]]]%Z.
Definition ex_input : Tensor (R := Z) := [[[10; 20]; [30; 40]; [50; 60]]]%Z.

(** A model of hidden size 2 over binary64 numbers with one layer: the fusion
    module of its output block has the identity as value weight, the one of
    its attention block has no value projection. *)
Definition float_identity : Regularization.Matrix (R := float) :=
  [[1%float; 0%float]; [0%float; 1%float]].

Definition ex_model : Regularization.BertModel (R := float) :=
  {| Regularization.hidden_size := 2;
     Regularization.encoder_layer :=
       [ {| Regularization.output_adapter_fusion_layer :=
              [("a,b", {| Regularization.value_weight := Some float_identity |})];
            Regularization.attention_output_adapter_fusion_layer :=
              [("a,b", {| Regularization.value_weight := Some float_identity |})] |} ] |}.

(** The binary64 number nearest to 0.01, the value of the literal [0.01]. *)
Definition c001 : float := 0x1.47ae147ae147bp-7%float.

(** The compositions the interpreters are run on below. *)
Definition setup_absent : Block := Stack [Leaf "c"].
Definition setup_last_absent : Block := Stack [Leaf "a"; Leaf "c"].
Definition setup_fuse : Block := Fuse "a,b" [Leaf "a"; Leaf "b"].
Definition setup_fuse_in_fuse : Block :=
  Stack [Fuse "a,b" [Fuse "a,b" [Leaf "a"; Leaf "b"]; Leaf "b"]].
Definition setup_split_stack : Block := Split [Stack [Leaf "a"]; Leaf "b"] 1.

End Examples.

(** ** A concrete encoder and a concrete model with heads *)

Module MoreExamples.
Import Examples.

(** The adapter [a] goes to both locations with reduction factor 2 and is
    left out of layer 1; [b] goes to the output location only and has the
    reduction factor 0; every other name has neither location enabled. *)
Definition ex_settings (name : string) : AdapterSettings :=
  {| mh_adapter := bool_decide (name = "a");
     output_adapter := bool_decide (name = "a") || bool_decide (name = "b");
     reduction_factor := if bool_decide (name = "a") then 2 else 0;
     ln_before := false; ln_after := false; non_linearity := "relu";
     adapter_residual_before_ln := true;
     leave_out := if bool_decide (name = "a") then Some [1%Z] else None |}.

Definition ex_hidden_size : Z := 4.

Definition ex_Adapter_init (input_size down_sample : Z) (_ _ : bool) (_ : string) (_ : bool)
  : Adapter (R := Z) := ex_adapter down_sample.

Definition ex_BertFusion_init (_ : Config) : BertFusion (R := Z) := ex_fusion.

(** An instance of [common_config_value] that does what the configuration
    class does: the value the named adapters share for the key, and a
    [ValueError] when a name is not configured or when two of the adapters
    differ on the key. *)
Fixpoint ex_common_config_loop (cfgs : ModelAdaptersConfig) (key : string)
    (names : list string) (i : nat) (common_value : option bool) : Raised + option bool :=
  match names with
  | [] => inr common_value
  | name :: rest =>
      match adapters cfgs !! name with
      | None =>
          inl (RaisedValueError ("No adapter with name '" +:+ name +:+ "' found."))
      | Some _ =>
          let config_value := location_enabled (ex_settings name) key in
          if bool_decide (0 < i)%nat && negb (bool_decide (config_value = common_value))
          then inl (RaisedValueError
                      ("All given adapters must define the same value for config attribute "
                       +:+ key +:+ "."))
          else ex_common_config_loop cfgs key rest (S i) config_value
      end
  end.

Definition ex_common_config_value (cfgs : ModelAdaptersConfig) (names : list string)
    (key : string) : Raised + bool :=
  match ex_common_config_loop cfgs key names 0 None with
  | inl e => inl e
  | inr common_value => inr (default false common_value)
  end.

(** A block that holds nothing yet, in a model where the Stack of [a] is
    active. *)
Definition ex_config : Config :=
  {| config_adapters := Some (ex_adapters (Some (Stack [Leaf "a"])));
     config_adapter_fusion := None |}.

Definition ex_empty_block : BertAdaptersBaseMixin (R := Z) :=
  {| layer_norm := ex_layer_norm; adapter_modules := ∅; adapter_fusion_layer := ∅;
     config := ex_config |}.

Definition ex_layer : BertLayer (R := Z) :=
  {| attention_output := ex_empty_block; output := ex_empty_block |}.

Definition ex_encoder : BertEncoder (R := Z) :=
  {| layer := [ex_layer; ex_layer]; encoder_config := ex_config |}.

(** A model without heads, and a tagging head with three labels whose
    configuration is object 0 of the heap. *)
Definition ex_head_config : Heads.HeadConfig :=
  {| Heads.head_type := "tagging"; Heads.num_labels := Some 3%Z; Heads.num_choices := None;
     Heads.label2id := None |}.

Definition ex_head : Heads.PredictionHead (Outputs := Z) (Mask := unit) (Kwargs := unit) :=
  {| Heads.name := "ner"; Heads.head_config := 0;
     Heads.head_forward := fun outputs _ _ _ => (outputs + 1)%Z |}.

Definition ex_bare_config : Heads.HeadConfig :=
  {| Heads.head_type := "custom"; Heads.num_labels := None; Heads.num_choices := None;
     Heads.label2id := None |}.

Definition ex_model_heads
  : Heads.BertModelHeadsMixin (Outputs := Z) (Mask := unit) (Kwargs := unit) :=
  {| Heads.heap := fun ref => if decide (ref = 0%nat) then ex_head_config else ex_bare_config;
     Heads.heads := ∅; Heads.prediction_heads := ∅; Heads._active_head := None;
     Heads.config_label2id := None; Heads.config_id2label := None |}.

Definition ex_bare_head : Heads.PredictionHead (Outputs := Z) (Mask := unit) (Kwargs := unit) :=
  {| Heads.name := "bare"; Heads.head_config := 1;
     Heads.head_forward := fun outputs _ _ _ => outputs |}.

Definition ex_labels : Heads.Dict string Z := [("LABEL_0", 0%Z); ("LABEL_1", 1%Z); ("LABEL_2", 2%Z)].

(** A multiple-choice head whose configuration has a number of labels beside
    its number of choices and [None] for its labels, in a model without
    heads. *)
Definition ex_choice_config : Heads.HeadConfig :=
  {| Heads.head_type := "multiple_choice"; Heads.num_labels := Some 3%Z;
     Heads.num_choices := Some 2%Z; Heads.label2id := Some None |}.

Definition ex_choice_head : Heads.PredictionHead (Outputs := Z) (Mask := unit) (Kwargs := unit) :=
  {| Heads.name := "mc"; Heads.head_config := 2;
     Heads.head_forward := fun outputs _ _ _ => outputs |}.

Definition ex_choice_model
  : Heads.BertModelHeadsMixin (Outputs := Z) (Mask := unit) (Kwargs := unit) :=
  {| Heads.heap := fun _ => ex_choice_config;
     Heads.heads := ∅; Heads.prediction_heads := ∅; Heads._active_head := None;
     Heads.config_label2id := None; Heads.config_id2label := None |}.

(** The model after the tagging head has been added. *)
Definition ex_model_with_head
  : Heads.BertModelHeadsMixin (Outputs := Z) (Mask := unit) (Kwargs := unit) :=
  (Heads.add_prediction_head ex_model_heads ex_head false).1.

End MoreExamples.

(** ** Facts about computations *)

Lemma mbind_ext {A B} (m : M A) (k k' : A -> M B) :
  (forall a, k a = k' a) -> (m ≫= k) = (m ≫= k').
Proof.
  intros Hk. destruct m as [tr [e|a]]; [reflexivity|].
  unfold mbind, M_bind, bind. rewrite Hk. reflexivity.
Qed.

Lemma mbind_inr {A B} (m : M A) (k : A -> M B) tr a :
  m = (tr, inr a) -> (m ≫= k) = (tr ++ calls (k a), outcome (k a)).
Proof. intros ->. unfold mbind, M_bind, bind, calls, outcome. destruct (k a); reflexivity. Qed.

Lemma mbind_inl {A B} (m : M A) (k : A -> M B) tr e :
  m = (tr, inl e) -> (m ≫= k) = (tr, inl e).
Proof. intros ->. reflexivity. Qed.

Lemma mbind_mret {A B} (a : A) (k : A -> M B) : (mret a ≫= k) = k a.
Proof. unfold mret, M_ret, ret, mbind, M_bind, bind. simpl. destruct (k a); reflexivity. Qed.

Lemma outcome_bind_inr {A B} (m : M A) (k : A -> M B) a :
  outcome m = inr a -> outcome (m ≫= k) = outcome (k a).
Proof.
  destruct m as [tr r]; simpl; intros ->.
  unfold mbind, M_bind, bind, outcome. destruct (k a); reflexivity.
Qed.

Lemma outcome_bind_inl {A B} (m : M A) (k : A -> M B) e :
  outcome m = inl e -> outcome (m ≫= k) = inl e.
Proof. destruct m as [tr r]; simpl; intros ->. reflexivity. Qed.

Lemma calls_bind {A B} (m : M A) (k : A -> M B) :
  calls (m ≫= k) =
    calls m ++ match outcome m with inl _ => [] | inr a => calls (k a) end.
Proof.
  destruct m as [tr [e|a]]; simpl.
  - unfold calls; simpl. rewrite app_nil_r. reflexivity.
  - unfold mbind, M_bind, bind, calls. destruct (k a); reflexivity.
Qed.

Lemma outcome_bind_inv {A B} (m : M A) (k : A -> M B) b :
  outcome (m ≫= k) = inr b ->
  exists a, outcome m = inr a /\ outcome (k a) = inr b.
Proof.
  destruct m as [tr [e|a]]; simpl; [discriminate|].
  intros Hb. exists a. split; [reflexivity|].
  revert Hb. unfold mbind, M_bind, bind, outcome. destruct (k a); simpl; auto.
Qed.

Lemma lookup_map {A B} (f : A -> B) (l : list A) (j : nat) :
  map f l !! j = f <$> (l !! j).
Proof. revert j. induction l as [|x l IH]; intros [|j]; cbn; auto. Qed.

Lemma Forall_calls_bind {A B} (P : Event -> Prop) (m : M A) (k : A -> M B) :
  Forall P (calls m) ->
  (forall a, outcome m = inr a -> Forall P (calls (k a))) ->
  Forall P (calls (m ≫= k)).
Proof.
  intros Hm Hk. rewrite calls_bind. apply Forall_app. split; [exact Hm|].
  destruct (outcome m) as [e|a]; [constructor | apply Hk; reflexivity].
Qed.

(** ** Facts about the interpreters *)

Section InterpreterFacts.

Context {R : Type} (radd : R -> R -> R).

Implicit Types (self : BertAdaptersBaseMixin (R := R)).
Implicit Types (h i hidden_states input_tensor residual : Tensor (R := R)).

Lemma adapter_stack_unfold self b h i lvl :
  is_composition_block b = true ->
  adapter_stack radd self b h i lvl = stack_loop radd self i lvl (children_of b) h None.
Proof.
  intros Hb.
  destruct b as [n|cs|nm cs|cs k]; try discriminate; clear Hb;
    cbn [adapter_stack children_of];
    match goal with
    | |- ?F cs h None = _ =>
        enough (Hloop : forall up h', F cs h' up = stack_loop radd self i lvl cs h' up)
          by apply Hloop
    end.
  all: induction cs as [|c cs IH]; intros up h'; [reflexivity|].
  all: cbn [stack_loop]; destruct (is_composition_block c && (1 <=? lvl)%nat); [reflexivity|].
  all: destruct c as [n'|cs'|nm' cs'|cs' k'];
      [ destruct (adapter_modules self !! n'); [|apply IH];
        apply mbind_ext; intros [[h2 q] r]; apply mbind_ext; intros [h3 u]; apply IH
      | reflexivity
      | apply mbind_ext; intros h2; apply IH
      | apply mbind_ext; intros h2; apply IH ].
Qed.

Lemma adapter_fusion_unfold self b h i lvl :
  is_composition_block b = true ->
  adapter_fusion radd self b h i lvl =
    '(hidden_states, query, residual) ← resolve_preparams radd self InFuse (last b) h i;
    up_list ← fusion_loop radd self (class_name b) hidden_states i residual lvl
                          (children_of b) None [];
    if (0 <? length up_list)%nat
    then call_fusion self (block_name b) query (torch_stack_permute up_list) residual
    else mret hidden_states.
Proof.
  intros Hb.
  destruct b as [n|cs|nm cs|cs k]; try discriminate; clear Hb;
    cbn [adapter_fusion children_of];
    (apply mbind_ext; intros [[h2 q] r]);
    match goal with
    | |- ?F cs None [] ≫= _ = fusion_loop _ _ ?o _ _ _ _ _ _ _ ≫= _ =>
        enough (Hloop : forall up ups, F cs up ups =
                  fusion_loop radd self o h2 i r lvl cs up ups)
          by (rewrite Hloop; reflexivity)
    end.
  all: induction cs as [|c cs IH]; intros up ups; [reflexivity|].
  all: cbn [fusion_loop]; unfold fusion_child at 1.
  all: destruct c as [n'|cs'|nm' cs'|cs' k']; try reflexivity.
  all: apply mbind_ext; intros [u|]; [apply IH | reflexivity].
Qed.

Lemma adapter_split_unfold self b h i lvl :
  is_composition_block b = true ->
  adapter_split radd self b h i lvl =
    '(hidden_states, query, residual) ← resolve_preparams radd self InSplit (first b) h i;
    match block_split_index b with
    | None => raise AttributeError
    | Some split_index =>
        split_hidden_states ←
          split_loop radd self (class_name b)
            [slice_to split_index i; slice_from split_index i]
            [slice_to split_index residual; slice_from split_index residual]
            lvl (children_of b) 0%nat
            [slice_to split_index hidden_states; slice_from split_index hidden_states];
        mret (torch_cat_dim1 split_hidden_states)
    end.
Proof.
  intros Hb.
  destruct b as [n|cs|nm cs|cs k]; try discriminate; clear Hb;
    cbn [adapter_split children_of block_split_index];
    (apply mbind_ext; intros [[h2 q] r]); try reflexivity.
  match goal with
  | |- ?F cs 0%nat ?l ≫= _ = _ =>
      enough (Hloop : forall j shs, F cs j shs =
                split_loop radd self "Split" [slice_to k i; slice_from k i]
                  [slice_to k r; slice_from k r] lvl cs j shs)
        by (rewrite Hloop; reflexivity)
  end.
  induction cs as [|c cs IH]; intros j shs; [reflexivity|].
  cbn [split_loop].
  destruct c as [n'|cs'|nm' cs'|cs' k']; try reflexivity.
  - destruct (adapter_modules self !! n'); [|apply IH].
    apply mbind_ext; intros h3. apply mbind_ext; intros r3.
    apply mbind_ext; intros [h4 u]. apply IH.
  - apply mbind_ext; intros h3. apply mbind_ext; intros x3.
    apply mbind_ext; intros [h4 u]. apply IH.
Qed.

(** *** The pass-through of a block *)

(** C1. For every block, when no composition is active, or when none of the
    adapter names of the flattened active composition is registered in the
    block, [adapters_forward] makes no call into the adapter machinery and
    returns exactly [LayerNorm(hidden_states + input_tensor)]. *)
Theorem adapters_forward_passthrough self h i :
  (active_composition self = None \/
   exists setup, active_composition self = Some setup /\
                 dom (adapter_modules self) ∩ flatten setup = ∅) ->
  adapters_forward radd self h i = ([], inr (layer_norm self (tensor_add radd h i))).
Proof.
  intros [Hnone | (setup & Hsome & Hdisj)]; unfold adapters_forward.
  - rewrite Hnone. reflexivity.
  - rewrite Hsome, Hdisj, size_empty.
    rewrite bool_decide_eq_false_2 by lia. reflexivity.
Qed.

(** *** The pre-parameter resolver *)

(** C5. With [residual_before_ln] and [original_ln_before] both set, the
    resolver returns as residual the incoming [hidden_states], taken before
    the layer norm, and as hidden states [LayerNorm(hidden_states +
    input_tensor)]; with [residual_before_ln] unset the residual is the
    returned hidden states, that is the value after the conditional layer
    norm. *)
Theorem preparams_residual_capture self (ln_before ln_after ln_after' : bool) h i :
  let early := get_adapter_preparams radd self
                 {| residual_before_ln := true; original_ln_before := true;
                    original_ln_after := ln_after |} h i in
  let late := get_adapter_preparams radd self
                {| residual_before_ln := false; original_ln_before := ln_before;
                   original_ln_after := ln_after' |} h i in
  early.2 = h /\
  early.1.1 = layer_norm self (tensor_add radd h i) /\
  late.2 = late.1.1 /\
  late.1.1 = (if ln_before then layer_norm self (tensor_add radd h i) else h).
Proof.
  unfold get_adapter_preparams; simpl. repeat split.
Qed.

(** C8. The query returned by the resolver is [None] when the model has no
    fusion configuration.  Otherwise it is a copy of the hidden states: the
    incoming ones, before the layer norm, when [query_before_ln] is set, and
    the ones after the conditional layer norm when it is not, that is
    [LayerNorm(hidden_states + input_tensor)] under [original_ln_before] and
    the incoming ones without it; this is the tensor returned as hidden
    states.  The value of [residual_before_ln] has no influence on it. *)
Theorem preparams_query self (cfg : AdapterConfig) (flag : bool) h i :
  let out := get_adapter_preparams radd self cfg h i in
  out.1.2 =
    match config_adapter_fusion (config self) with
    | None => None
    | Some f =>
        Some (if query_before_ln f then h
              else if original_ln_before cfg
                   then layer_norm self (tensor_add radd h i)
                   else h)
    end /\
  out.1.1 = (if original_ln_before cfg then layer_norm self (tensor_add radd h i) else h) /\
  (get_adapter_preparams radd self
     {| residual_before_ln := flag;
        original_ln_before := original_ln_before cfg;
        original_ln_after := original_ln_after cfg |} h i).1.2 = out.1.2.
Proof.
  unfold get_adapter_preparams; simpl.
  destruct (config_adapter_fusion (config self)) as [f|]; [|repeat split; reflexivity].
  destruct (query_before_ln f); simpl; repeat split; reflexivity.
Qed.

(** *** The layer norm after interpretation *)

(** C6. When a composition is active and meets the registry of the block and
    the interpreter returns [hs], [adapters_forward] returns
    [LayerNorm(hs + input_tensor)] if the configuration of the last adapter
    of the composition has [original_ln_after] set and [hs] itself if not;
    nothing is asked of the registry of the block about that last adapter. *)
Theorem adapters_forward_ln_after self setup h i tr hs cfgs n last_config :
  active_composition self = Some setup ->
  (0 < size (dom (adapter_modules self) ∩ flatten setup))%nat ->
  dispatch_setup radd self setup h i = (tr, inr hs) ->
  config_adapters (config self) = Some cfgs ->
  last setup = Some n ->
  adapters cfgs !! n = Some last_config ->
  adapters_forward radd self h i =
    (tr, inr (if original_ln_after last_config
              then layer_norm self (tensor_add radd hs i)
              else hs)).
Proof.
  intros Hact Hmeet Hrun Hcfgs Hlast Hn. unfold adapters_forward.
  rewrite Hact, bool_decide_eq_true_2 by exact Hmeet.
  rewrite (mbind_inr _ _ _ _ Hrun).
  unfold last_config_ln_after. rewrite Hcfgs, Hlast, Hn, mbind_mret.
  destruct (original_ln_after last_config); simpl; rewrite app_nil_r; reflexivity.
Qed.

(** *** The unassigned up-projection *)

Lemma stack_loop_absent self i lvl cs h up :
  Forall (absent_leaf self) cs ->
  stack_loop radd self i lvl cs h up =
    match up with
    | Some u => ([], inr (h, u))
    | None => ([], inl (UnboundLocalError "up"))
    end.
Proof.
  induction 1 as [|c cs (n & -> & Hn) _ IH]; [destruct up; reflexivity|].
  cbn [stack_loop is_composition_block andb]. rewrite Hn. exact IH.
Qed.

Lemma resolve_preparams_some self site n cfgs cfg h i :
  config_adapters (config self) = Some cfgs ->
  adapters cfgs !! n = Some cfg ->
  resolve_preparams radd self site (Some n) h i =
    ([EvPreparams site n], inr (get_adapter_preparams radd self cfg h i)).
Proof. intros Hc Hn. unfold resolve_preparams. rewrite Hc, Hn. reflexivity. Qed.

(** C10. For some inputs interpretation ends in an unbound-variable error.
    [adapter_stack] on a Stack whose children are all names absent from the
    block never assigns [up] and fails at its [return]; this is reached when
    such a Stack is the first child of a Fuse whose pre-parameters resolve.
    [adapter_fusion] appends an entry for every child: when the first child is
    an absent name the append fails on the unbound [up], and when an absent
    name follows a hosted one the entry of the hosted child is appended a
    second time. *)
Theorem up_projection_unbound self cs nm rest a c (A : Adapter (R := R))
    (fusion : BertFusion (R := R)) cfgs cfg h i lvl :
  Forall (absent_leaf self) cs ->
  config_adapters (config self) = Some cfgs ->
  adapter_modules self !! a = Some A ->
  adapter_modules self !! c = None ->
  adapters cfgs !! c = Some cfg ->
  adapter_fusion_layer self !! nm = Some fusion ->
  adapter_stack radd self (Stack cs) h i lvl = ([], inl (UnboundLocalError "up")) /\
  (forall n, last (Fuse nm (Stack cs :: rest)) = Some n ->
             is_Some (adapters cfgs !! n) ->
     adapter_fusion radd self (Fuse nm (Stack cs :: rest)) h i lvl =
       ([EvPreparams InFuse n], inl (UnboundLocalError "up"))) /\
  (forall n, last (Fuse nm (Leaf c :: rest)) = Some n ->
             is_Some (adapters cfgs !! n) ->
     adapter_fusion radd self (Fuse nm (Leaf c :: rest)) h i lvl =
       ([EvPreparams InFuse n], inl (UnboundLocalError "up"))) /\
  (let '(h', query, residual) := get_adapter_preparams radd self cfg h i in
   let up := (A h' residual).2 in
   adapter_fusion radd self (Fuse nm [Leaf a; Leaf c]) h i lvl =
     ([EvPreparams InFuse c; EvAdapter a; EvFusion nm],
      inr (fusion query (torch_stack_permute [up; up])
                  (torch_stack_permute [up; up]) residual))).
Proof.
  intros Habs Hcfgs Ha Hc Hcfg Hfus.
  assert (Hstack : forall h' l, adapter_stack radd self (Stack cs) h' i l =
                                ([], inl (UnboundLocalError "up"))).
  { intros h' l. rewrite adapter_stack_unfold by reflexivity.
    cbn [children_of]. rewrite stack_loop_absent by exact Habs. reflexivity. }
  split; [apply Hstack|]. split; [|split].
  - intros n Hlast [cfg' Hn]. rewrite adapter_fusion_unfold by reflexivity.
    rewrite Hlast, (mbind_inr _ _ _ _ (resolve_preparams_some _ _ _ _ _ _ _ Hcfgs Hn)).
    destruct (get_adapter_preparams radd self cfg' h i) as [[h' q] r].
    cbn [children_of fusion_loop fusion_child class_name].
    rewrite Hstack. reflexivity.
  - intros n Hlast [cfg' Hn]. rewrite adapter_fusion_unfold by reflexivity.
    rewrite Hlast, (mbind_inr _ _ _ _ (resolve_preparams_some _ _ _ _ _ _ _ Hcfgs Hn)).
    destruct (get_adapter_preparams radd self cfg' h i) as [[h' q] r].
    cbn [children_of fusion_loop fusion_child class_name].
    rewrite Hc. reflexivity.
  - rewrite adapter_fusion_unfold by reflexivity.
    cbn [last]. rewrite (mbind_inr _ _ _ _ (resolve_preparams_some _ _ _ _ _ _ _ Hcfgs Hcfg)).
    destruct (get_adapter_preparams radd self cfg h i) as [[h' q] r].
    cbn [children_of fusion_loop fusion_child class_name block_name].
    rewrite Ha, Hc. unfold call_adapter, call_fusion. rewrite Hfus.
    destruct (A h' r) as [out up]. reflexivity.
Qed.

(** *** Nesting errors *)

Lemma stack_loop_too_deep self cfgs i lvl pre c post h up :
  config_adapters (config self) = Some cfgs ->
  (1 <= lvl)%nat ->
  is_composition_block c = true ->
  Forall (fun b => exists n, b = Leaf n /\
            (is_Some (adapter_modules self !! n) -> is_Some (adapters cfgs !! n))) pre ->
  stack_loop radd self i lvl (pre ++ c :: post) h up =
    (flat_map (leaf_calls self) pre, inl (TooDeep (class_name c) lvl)).
Proof.
  intros Hcfgs Hlvl Hc Hpre. revert h up.
  induction Hpre as [|b pre (n & -> & Hn) _ IH]; intros h up.
  - cbn [app stack_loop flat_map]. rewrite Hc.
    destruct lvl; [lia|]. reflexivity.
  - cbn [app stack_loop is_composition_block andb flat_map leaf_calls].
    destruct (adapter_modules self !! n) as [A|] eqn:HA; [|apply IH].
    destruct Hn as [cfg Hcfg]; [eauto|].
    rewrite (mbind_inr _ _ _ _ (resolve_preparams_some _ _ _ _ _ _ _ Hcfgs Hcfg)).
    destruct (get_adapter_preparams radd self cfg h i) as [[h' q] r].
    cbn beta iota.
    rewrite (mbind_inr (call_adapter n A h' r) _ [EvAdapter n] (A h' r) eq_refl).
    destruct (A h' r) as [out u]. cbn beta iota.
    rewrite IH. reflexivity.
Qed.

(** A Fuse or a Split met as a child by a Fuse or by a Split: the membership
    test on the module dictionary ends the loop, once the children before it
    have run. *)
Lemma fusion_loop_block_child self outer h i r lvl pre c post up ups res :
  is_fuse_or_split c = true ->
  outcome (fusion_loop radd self outer h i r lvl pre up ups) = inr res ->
  outcome (fusion_loop radd self outer h i r lvl (pre ++ c :: post) up ups) = inl TypeError.
Proof.
  intros Hc. revert up ups. induction pre as [|b pre IH]; intros up ups Hrun.
  - cbn [app fusion_loop]. destruct c; try discriminate; reflexivity.
  - cbn [app fusion_loop] in *.
    apply outcome_bind_inv in Hrun as ([u|] & Hb & Hrest); [|discriminate].
    rewrite (outcome_bind_inr _ _ _ Hb). apply IH. exact Hrest.
Qed.

Lemma split_loop_block_child self outer xs rs lvl pre c post j shs res :
  is_fuse_or_split c = true ->
  outcome (split_loop radd self outer xs rs lvl pre j shs) = inr res ->
  outcome (split_loop radd self outer xs rs lvl (pre ++ c :: post) j shs) = inl TypeError.
Proof.
  intros Hc. revert j shs. induction pre as [|b pre IH]; intros j shs Hrun.
  - cbn [app split_loop]. destruct c; try discriminate; reflexivity.
  - cbn [app split_loop] in *. destruct b as [n|cs'|nm' cs'|cs' k']; try discriminate.
    + destruct (adapter_modules self !! n) as [A|]; [|apply IH; exact Hrun].
      apply outcome_bind_inv in Hrun as (h1 & H1 & Hrun). rewrite (outcome_bind_inr _ _ _ H1).
      apply outcome_bind_inv in Hrun as (r1 & H2 & Hrun). rewrite (outcome_bind_inr _ _ _ H2).
      apply outcome_bind_inv in Hrun as ([h2 u] & H3 & Hrun). rewrite (outcome_bind_inr _ _ _ H3).
      apply IH. exact Hrun.
    + apply outcome_bind_inv in Hrun as (h1 & H1 & Hrun). rewrite (outcome_bind_inr _ _ _ H1).
      apply outcome_bind_inv in Hrun as (x1 & H2 & Hrun). rewrite (outcome_bind_inr _ _ _ H2).
      apply outcome_bind_inv in Hrun as ([h2 u] & H3 & Hrun). rewrite (outcome_bind_inr _ _ _ H3).
      apply IH. exact Hrun.
Qed.

(** C3 (as the code has it).  The depth check is the first statement of the
    loop of [adapter_stack]: a composite child (Stack, Fuse or Split) met by
    [adapter_stack] running at level 1 or more, after children that are names
    (configured when hosted), makes it raise the depth error naming the class
    of that child and the level.  Neither the child nor anything after it is
    run: the calls made are those of the names before it. *)
Theorem nested_composite_rejected self cfgs pre c post h i lvl :
  config_adapters (config self) = Some cfgs ->
  (1 <= lvl)%nat ->
  is_composition_block c = true ->
  Forall (fun b => exists n, b = Leaf n /\
            (is_Some (adapter_modules self !! n) -> is_Some (adapters cfgs !! n))) pre ->
  adapter_stack radd self (Stack (pre ++ c :: post)) h i lvl =
    (flat_map (leaf_calls self) pre, inl (TooDeep (class_name c) lvl)).
Proof.
  intros Hcfgs Hlvl Hc Hpre.
  rewrite adapter_stack_unfold by reflexivity.
  apply (stack_loop_too_deep _ _ _ _ _ _ _ _ _ Hcfgs Hlvl Hc Hpre).
Qed.

(** *** Which configuration a Fuse and a Split resolve, and when *)

Local Abbreviation foreign := (Forall (fun e => own_preparams e = false)).

Lemma resolve_preparams_stack_calls self name h i :
  foreign (calls (resolve_preparams radd self InStack name h i)).
Proof.
  unfold resolve_preparams.
  destruct (config_adapters (config self)) as [cfgs|]; [|constructor].
  destruct name as [n|]; [|constructor].
  destruct (adapters cfgs !! n); repeat constructor.
Qed.

Lemma call_adapter_calls n (A : Adapter (R := R)) h r : foreign (calls (call_adapter n A h r)).
Proof. repeat constructor. Qed.

Lemma call_fusion_calls self name q (ups : Tensor4 (R := R)) r :
  foreign (calls (call_fusion self name q ups r)).
Proof.
  unfold call_fusion. destruct name as [n|]; [|constructor].
  destruct (adapter_fusion_layer self !! n : option BertFusion); repeat constructor.
Qed.

Lemma index_calls {A} (xs : list A) j : calls (index xs j) = [].
Proof. unfold index. destruct (xs !! j); reflexivity. Qed.

Lemma stack_loop_calls self i lvl cs h up :
  (1 <= lvl)%nat -> foreign (calls (stack_loop radd self i lvl cs h up)).
Proof.
  intros Hlvl. revert h up. induction cs as [|c cs IH]; intros h up.
  - destruct up; constructor.
  - cbn [stack_loop].
    destruct (is_composition_block c && (1 <=? lvl)%nat) eqn:Hdeep; [constructor|].
    destruct c as [n|cs'|nm' cs'|cs' k'].
    + destruct (adapter_modules self !! n) as [A|]; [|apply IH].
      apply Forall_calls_bind; [apply resolve_preparams_stack_calls|].
      intros [[h' q] r] _.
      apply Forall_calls_bind; [apply call_adapter_calls|].
      intros [h2 u] _. apply IH.
    + destruct lvl; [lia | discriminate].
    + destruct lvl; [lia | discriminate].
    + destruct lvl; [lia | discriminate].
Qed.

Lemma fusion_loop_calls self outer h i r lvl cs up ups :
  foreign (calls (fusion_loop radd self outer h i r lvl cs up ups)).
Proof.
  revert up ups. induction cs as [|c cs IH]; intros up ups; [constructor|].
  cbn [fusion_loop]. apply Forall_calls_bind.
  - destruct c as [n|cs'|nm' cs'|cs' k']; cbn [fusion_child]; try constructor.
    + destruct (adapter_modules self !! n) as [A|]; [|constructor].
      apply Forall_calls_bind; [apply call_adapter_calls|].
      intros [h2 u] _. constructor.
    + apply Forall_calls_bind; [|intros [h2 u] _; constructor].
      rewrite adapter_stack_unfold by reflexivity. apply stack_loop_calls. lia.
  - intros [u|] _; [apply IH | constructor].
Qed.

Lemma split_loop_calls self outer xs rs lvl cs j shs :
  foreign (calls (split_loop radd self outer xs rs lvl cs j shs)).
Proof.
  revert j shs. induction cs as [|c cs IH]; intros j shs; [constructor|].
  cbn [split_loop]. destruct c as [n|cs'|nm' cs'|cs' k']; try constructor.
  - destruct (adapter_modules self !! n) as [A|]; [|apply IH].
    apply Forall_calls_bind; [rewrite index_calls; constructor|]. intros h1 _.
    apply Forall_calls_bind; [rewrite index_calls; constructor|]. intros r1 _.
    apply Forall_calls_bind; [apply call_adapter_calls|]. intros [h2 u] _. apply IH.
  - apply Forall_calls_bind; [rewrite index_calls; constructor|]. intros h1 _.
    apply Forall_calls_bind; [rewrite index_calls; constructor|]. intros x1 _.
    apply Forall_calls_bind; [|intros [h2 u] _; apply IH].
    rewrite adapter_stack_unfold by reflexivity. apply stack_loop_calls. lia.
Qed.

Lemma resolve_preparams_calls self site n cfgs h i :
  config_adapters (config self) = Some cfgs ->
  calls (resolve_preparams radd self site (Some n) h i) = [EvPreparams site n].
Proof.
  intros Hc. unfold resolve_preparams. rewrite Hc.
  destruct (adapters cfgs !! n); reflexivity.
Qed.

(** C4. In a model with adapter configurations, the first call a Fuse makes
    is the resolution of the pre-parameters with the configuration of its last
    adapter, and the first call a Split makes is that resolution with the
    configuration of its first adapter; these names are the last, respectively
    first, child when that child is a bare name.  No later call of the run
    resolves pre-parameters for a Fuse or a Split again, and the children are
    run on the hidden states and residual resolved from that configuration. *)
Theorem preparams_resolved_once self cfgs nm k cs h i lvl :
  config_adapters (config self) = Some cfgs ->
  (forall n, last (Fuse nm cs) = Some n ->
     exists tr, calls (adapter_fusion radd self (Fuse nm cs) h i lvl) =
                  EvPreparams InFuse n :: tr /\ foreign tr) /\
  (forall n, first (Split cs k) = Some n ->
     exists tr, calls (adapter_split radd self (Split cs k) h i lvl) =
                  EvPreparams InSplit n :: tr /\ foreign tr) /\
  (forall n, last (Fuse nm (cs ++ [Leaf n])) = Some n /\
             first (Split (Leaf n :: cs) k) = Some n) /\
  (forall n cfg, last (Fuse nm cs) = Some n -> adapters cfgs !! n = Some cfg ->
     adapter_fusion radd self (Fuse nm cs) h i lvl =
       (_ ← emit (EvPreparams InFuse n);
        let '(h', query, residual) := get_adapter_preparams radd self cfg h i in
        up_list ← fusion_loop radd self "Fuse" h' i residual lvl cs None [];
        if (0 <? length up_list)%nat
        then call_fusion self (Some nm) query (torch_stack_permute up_list) residual
        else mret h')) /\
  (forall n cfg, first (Split cs k) = Some n -> adapters cfgs !! n = Some cfg ->
     adapter_split radd self (Split cs k) h i lvl =
       (_ ← emit (EvPreparams InSplit n);
        let '(h', _, residual) := get_adapter_preparams radd self cfg h i in
        split_hidden_states ←
          split_loop radd self "Split" [slice_to k i; slice_from k i]
            [slice_to k residual; slice_from k residual] lvl cs 0
            [slice_to k h'; slice_from k h'];
        mret (torch_cat_dim1 split_hidden_states))).
Proof.
  intros Hcfgs. repeat split.
  - intros n Hlast. rewrite adapter_fusion_unfold by reflexivity.
    rewrite Hlast, calls_bind, (resolve_preparams_calls _ _ _ _ _ _ Hcfgs).
    eexists; split; [reflexivity|].
    destruct (outcome _) as [e|[[h' q] r]]; [constructor|].
    apply Forall_calls_bind; [apply fusion_loop_calls|].
    intros ups _. destruct (0 <? length ups)%nat; [apply call_fusion_calls | constructor].
  - intros n Hfirst. rewrite adapter_split_unfold by reflexivity.
    rewrite Hfirst, calls_bind, (resolve_preparams_calls _ _ _ _ _ _ Hcfgs).
    eexists; split; [reflexivity|].
    destruct (outcome _) as [e|[[h' q] r]]; [constructor|].
    cbn [block_split_index].
    apply Forall_calls_bind; [apply split_loop_calls|].
    intros shs _. constructor.
  - induction cs as [|c [|c' cs'] IH]; [reflexivity | reflexivity | exact IH].
  - intros n cfg Hlast Hcfg. rewrite adapter_fusion_unfold by reflexivity.
    rewrite Hlast, (resolve_preparams_some _ _ _ _ _ _ _ Hcfgs Hcfg).
    destruct (get_adapter_preparams radd self cfg h i) as [[h' q] r]. reflexivity.
  - intros n cfg Hfirst Hcfg. rewrite adapter_split_unfold by reflexivity.
    rewrite Hfirst, (resolve_preparams_some _ _ _ _ _ _ _ Hcfgs Hcfg).
    destruct (get_adapter_preparams radd self cfg h i) as [[h' q] r]. reflexivity.
Qed.

(** *** The tensor handed to the fusion module *)

Lemma fusion_child_spec self outer h i r lvl c up u :
  outcome (fusion_child radd self outer h i r lvl c up) = inr (Some u) ->
  child_up radd self h i r lvl c up u.
Proof.
  destruct c as [n|cs'|nm' cs'|cs' k']; cbn [fusion_child child_up]; try discriminate.
  - destruct (adapter_modules self !! n) as [A|].
    + unfold call_adapter. destruct (A h r) as [out v]. cbn. congruence.
    + cbn. congruence.
  - intros Hrun. apply outcome_bind_inv in Hrun as ([hs v] & Hstack & Hv).
    cbn in Hv. exists hs. congruence.
Qed.

Lemma fusion_loop_spec self outer h i r lvl cs up ups res :
  outcome (fusion_loop radd self outer h i r lvl cs up ups) = inr res ->
  exists new, res = ups ++ new /\ up_entries radd self h i r lvl cs up new.
Proof.
  revert up ups. induction cs as [|c cs IH]; intros up ups Hrun.
  - cbn in Hrun. exists []. rewrite app_nil_r. split; [congruence | exact I].
  - cbn [fusion_loop] in Hrun.
    apply outcome_bind_inv in Hrun as ([u|] & Hc & Hrest); [|discriminate].
    apply IH in Hrest as (new & -> & Hnew).
    exists (u :: new). rewrite <- app_assoc. split; [reflexivity|].
    split; [eapply fusion_child_spec; exact Hc | exact Hnew].
Qed.

Lemma up_entries_length self h i r lvl cs up ups :
  up_entries radd self h i r lvl cs up ups -> length ups = length cs.
Proof.
  revert up ups. induction cs as [|c cs IH]; intros up [|u ups]; cbn; try tauto.
  intros [_ H]. f_equal. eapply IH, H.
Qed.

Lemma torch_stack_permute_lookup (ups : list (Tensor (R := R))) b s :
  (b < batch_extent ups)%nat -> (s < sequence_extent ups)%nat ->
  torch_stack_permute ups !! b ≫= (fun row => row !! s) =
    Some (map (fun t : Tensor => nth s (nth b t []) []) ups).
Proof.
  intros Hb Hs. unfold torch_stack_permute, Tensor4.
  rewrite lookup_map, lookup_seq_lt by exact Hb. cbn.
  rewrite lookup_map, lookup_seq_lt by exact Hs. reflexivity.
Qed.

(** C7. When a Fuse over [n] children (at least one) returns, the value is
    that of the fusion module of its group applied to the query, twice the
    stacked tensor, and the residual.  The stacked tensor is built from one
    up-projection per child, in the order of the children; at every batch and
    sequence position it holds exactly [n] feature vectors, the [a]-th being
    the feature vector the [a]-th up-projection has at that position. *)
Theorem fusion_stacked_up_projections self nm cs h i lvl tr out :
  cs <> [] ->
  adapter_fusion radd self (Fuse nm cs) h i lvl = (tr, inr out) ->
  exists h' query residual (ups : list Tensor) (fusion : BertFusion),
    outcome (resolve_preparams radd self InFuse (last (Fuse nm cs)) h i) =
      inr (h', query, residual) /\
    adapter_fusion_layer self !! nm = Some fusion /\
    out = fusion query (torch_stack_permute ups) (torch_stack_permute ups) residual /\
    up_entries radd self h' i residual lvl cs None ups /\
    length ups = length cs /\
    length (torch_stack_permute ups) = batch_extent ups /\
    forall b s, (b < batch_extent ups)%nat -> (s < sequence_extent ups)%nat ->
      exists position,
        torch_stack_permute ups !! b ≫= (fun row => row !! s) = Some position /\
        length position = length cs /\
        forall a up, ups !! a = Some up -> position !! a = Some (nth s (nth b up []) []).
Proof.
  intros Hcs Hrun. assert (Hout : outcome (adapter_fusion radd self (Fuse nm cs) h i lvl) = inr out)
    by (rewrite Hrun; reflexivity).
  rewrite adapter_fusion_unfold in Hout by reflexivity.
  apply outcome_bind_inv in Hout as ([[h' q] r] & Hres & Hout).
  apply outcome_bind_inv in Hout as (ups & Hloop & Hout).
  cbn [children_of class_name block_name] in *.
  apply fusion_loop_spec in Hloop as (new & -> & Hentries). cbn [app] in *.
  pose proof (up_entries_length _ _ _ _ _ _ _ _ Hentries) as Hlen.
  assert (Hpos : (0 <? length new)%nat = true).
  { apply Nat.ltb_lt. rewrite Hlen. destruct cs; [congruence | cbn; lia]. }
  rewrite Hpos in Hout. unfold call_fusion in Hout.
  destruct (adapter_fusion_layer self !! nm : option BertFusion) as [fusion|] eqn:Hfus;
    [|discriminate].
  exists h', q, r, new, fusion. repeat split; try assumption.
  - cbn in Hout. congruence.
  - unfold torch_stack_permute. rewrite length_map, length_seq. reflexivity.
  - intros b s Hb Hs. eexists. split; [apply torch_stack_permute_lookup; assumption|].
    split; [rewrite length_map; exact Hlen|].
    intros a up Ha. unfold Tensor in *. rewrite lookup_map, Ha. reflexivity.
Qed.

(** *** Splitting *)

Lemma adapter_split_leaves self a b (A B : Adapter (R := R)) k h i lvl :
  adapter_modules self !! a = Some A ->
  adapter_modules self !! b = Some B ->
  adapter_split radd self (Split [Leaf a; Leaf b] k) h i lvl =
    split_by_hand radd self (Leaf a) (Leaf b) k h i lvl.
Proof.
  intros Ha Hb. rewrite adapter_split_unfold by reflexivity. unfold split_by_hand.
  apply mbind_ext. intros [[h' q] r].
  cbn [block_split_index children_of split_loop process_segment class_name].
  rewrite Ha, Hb. unfold index, call_adapter. cbn.
  destruct (A (slice_to k h') (slice_to k r)) as [p up0].
  destruct (B (slice_from k h') (slice_from k r)) as [q' up1]. reflexivity.
Qed.

(** Whatever a nested Stack in first position computes, the prefix of the
    result of a Split is the slice its pre-parameters resolved. *)
Lemma adapter_split_stack_segment_dropped self cs c1 k h i lvl tr out h' q r :
  outcome (resolve_preparams radd self InSplit (first (Split [Stack cs; c1] k)) h i) =
    inr (h', q, r) ->
  adapter_split radd self (Split [Stack cs; c1] k) h i lvl = (tr, inr out) ->
  exists suffix, out = torch_cat_dim1 [slice_to k h'; suffix].
Proof.
  intros Hres Hrun.
  assert (Hout : outcome (adapter_split radd self (Split [Stack cs; c1] k) h i lvl) = inr out)
    by (rewrite Hrun; reflexivity).
  rewrite adapter_split_unfold in Hout by reflexivity.
  rewrite (outcome_bind_inr _ _ _ Hres) in Hout.
  cbn [block_split_index children_of class_name] in Hout.
  apply outcome_bind_inv in Hout as (shs & Hloop & Hout).
  cbn in Hout. injection Hout as <-.
  cbn [split_loop] in Hloop. unfold index in Hloop. cbn [lookup list_lookup] in Hloop.
  rewrite ?mbind_mret in Hloop.
  apply outcome_bind_inv in Hloop as ([hs u] & _ & Hloop).
  destruct c1 as [n|cs'|nm' cs'|cs' k']; try discriminate.
  - destruct (adapter_modules self !! n) as [A|].
    + rewrite ?mbind_mret in Hloop.
      unfold call_adapter in Hloop. destruct (A (slice_from k h') (slice_from k r)) as [o v].
      cbn in Hloop. injection Hloop as <-. eexists. reflexivity.
    + cbn in Hloop. injection Hloop as <-. eexists. reflexivity.
  - rewrite ?mbind_mret in Hloop.
    apply outcome_bind_inv in Hloop as ([hs' u'] & _ & Hloop).
    cbn in Hloop. injection Hloop as <-. eexists. reflexivity.
Qed.

End InterpreterFacts.

(** ** Facts about the regularization loss *)

Module RegularizationFacts.
Import Regularization.

Section LossFacts.

Context {R : Type} (zero one c001 : R) (radd rsub rmul : R -> R -> R).

Local Abbreviation identity := (identity_matrix zero one).
Local Abbreviation distance := (squared_frobenius_distance zero radd rsub rmul).
Local Abbreviation term := (fun target w => rmul c001 (distance target w)).

(** The target the method builds is the identity matrix. *)
Lemma target_is_identity (n : nat) :
  fill_diagonal one (zeros zero n n) = identity n.
Proof.
  unfold fill_diagonal, zeros, identity_matrix.
  apply list_eq. intros r.
  rewrite list_lookup_imap, lookup_map.
  destruct (decide (r < n)%nat) as [Hr|Hr].
  - rewrite lookup_replicate_2, lookup_seq_lt by exact Hr. cbn. f_equal.
    apply list_eq. intros c. rewrite lookup_map.
    destruct (decide (c < n)%nat) as [Hc|Hc].
    + rewrite lookup_seq_lt by exact Hc. cbn.
      destruct (decide (r = c)) as [->|Hne].
      * rewrite list_lookup_insert_eq by (rewrite length_replicate; exact Hc). reflexivity.
      * rewrite list_lookup_insert_ne by exact Hne.
        rewrite lookup_replicate_2 by exact Hc. reflexivity.
    + rewrite lookup_seq_ge by lia. cbn.
      apply lookup_ge_None. rewrite length_insert, length_replicate. lia.
  - rewrite lookup_seq_ge by lia.
    rewrite (proj2 (lookup_ge_None _ _)) by (rewrite length_replicate; lia). reflexivity.
Qed.

(** Subtracting, squaring and summing is the squared Frobenius distance. *)
Lemma sum_pow2_sub (a b : Matrix (R := R)) :
  matrix_sum zero radd (matrix_pow2 rmul (matrix_sub rsub a b)) = distance a b.
Proof.
  unfold matrix_sum, matrix_pow2, matrix_sub, squared_frobenius_distance. do 2 f_equal.
  revert b. induction a as [|x a IH]; intros [|y b]; cbn; try reflexivity.
  f_equal; [|apply IH].
  clear. revert y. induction x as [|u x IH]; intros [|v y]; cbn; try reflexivity.
  f_equal. apply IH.
Qed.

Lemma add_fusion_losses_fold target (items : list (string * BertFusion (R := R))) acc :
  add_fusion_losses zero c001 radd rsub rmul target items acc =
    fold_left radd (map (term target) (omap value_weight (map snd items))) acc.
Proof.
  unfold add_fusion_losses. revert acc.
  induction items as [|[name f] items IH]; intros acc; [reflexivity|].
  cbn. destruct (value_weight f) as [w|]; cbn; rewrite IH; [|reflexivity].
  rewrite sum_pow2_sub. reflexivity.
Qed.

Lemma layers_fold target (layers : list (BertLayer (R := R))) acc :
  fold_left
    (fun reg_loss v =>
       let reg_loss := add_fusion_losses zero c001 radd rsub rmul target
                         (output_adapter_fusion_layer v) reg_loss in
       add_fusion_losses zero c001 radd rsub rmul target
         (attention_output_adapter_fusion_layer v) reg_loss)
    layers acc =
  fold_left radd
    (map (term target)
       (omap value_weight
          (flat_map (fun v => map snd (output_adapter_fusion_layer v)
                              ++ map snd (attention_output_adapter_fusion_layer v)) layers)))
    acc.
Proof.
  revert acc. induction layers as [|v layers IH]; intros acc; [reflexivity|].
  cbn [fold_left flat_map]. rewrite IH, !add_fusion_losses_fold.
  rewrite !omap_app, !map_app, !fold_left_app. reflexivity.
Qed.

Lemma loss_is_sum (self : BertModel) :
  get_fusion_regularization_loss zero one c001 radd rsub rmul self =
    fold_left radd (map (term (identity (hidden_size self))) (value_weights self)) zero.
Proof.
  unfold get_fusion_regularization_loss, value_weights, fusion_modules.
  rewrite target_is_identity. apply layers_fold.
Qed.

(** The facts about the scalars that make the loss vanish; all of them hold in
    floating-point arithmetic. *)
Hypothesis sub_one_one : rsub one one = zero.
Hypothesis sub_zero_zero : rsub zero zero = zero.
Hypothesis mul_zero_zero : rmul zero zero = zero.
Hypothesis add_zero_zero : radd zero zero = zero.
Hypothesis scale_zero : rmul c001 zero = zero.

Lemma zip_with_diag {A B} (f : A -> A -> B) (l : list A) :
  zip_with f l l = map (fun x => f x x) l.
Proof. induction l as [|x l IH]; cbn; [reflexivity | f_equal; exact IH]. Qed.

Lemma fold_zeros (l : list R) (acc : R) :
  acc = zero -> Forall (fun x => x = zero) l -> fold_left radd l acc = zero.
Proof.
  intros Hacc Hl. revert acc Hacc. induction Hl as [|x l -> _ IH]; intros acc ->; [reflexivity|].
  cbn. apply IH. exact add_zero_zero.
Qed.

Lemma distance_identity (n : nat) : distance (identity n) (identity n) = zero.
Proof.
  unfold squared_frobenius_distance. apply fold_zeros; [reflexivity|].
  rewrite zip_with_diag. apply Forall_concat.
  unfold identity_matrix. rewrite map_map. apply Forall_map, Forall_forall. intros r _.
  rewrite zip_with_diag, map_map. apply Forall_map, Forall_forall. intros c _.
  destruct (decide (r = c)).
  - rewrite sub_one_one. exact mul_zero_zero.
  - rewrite sub_zero_zero. exact mul_zero_zero.
Qed.

(** C9. The loss is [0.0] for a model without fusion modules, and [0.0] for a
    model whose fusion modules all have the identity matrix as value weight;
    in general it is the sum, over the fusion modules that have a value
    projection and in the order the layers hold them, of [0.01] times the
    squared Frobenius distance between the identity matrix and the value
    weight. *)
Theorem regularization_loss_zero_and_sum (self : BertModel) :
  (fusion_modules self = [] ->
     get_fusion_regularization_loss zero one c001 radd rsub rmul self = zero) /\
  (Forall (fun f => value_weight f = Some (identity (hidden_size self)))
          (fusion_modules self) ->
     get_fusion_regularization_loss zero one c001 radd rsub rmul self = zero) /\
  get_fusion_regularization_loss zero one c001 radd rsub rmul self =
    fold_left radd
      (map (fun w => rmul c001 (distance (identity (hidden_size self)) w))
           (value_weights self))
      zero.
Proof.
  split; [|split].
  - intros Hnone. rewrite loss_is_sum. unfold value_weights. rewrite Hnone. reflexivity.
  - intros Hid. rewrite loss_is_sum. apply fold_zeros; [reflexivity|].
    apply Forall_map. unfold value_weights.
    induction Hid as [|f fs Hf _ IH]; [constructor|].
    cbn. rewrite Hf. cbn. constructor; [|exact IH].
    rewrite distance_identity. exact scale_zero.
  - apply loss_is_sum.
Qed.

End LossFacts.
End RegularizationFacts.

(** ** The interpreters on the concrete block *)

Section Runs.
Import Examples.

(** The pass-through law at a composition whose only adapter is left out of
    the block. *)
Lemma adapters_forward_passthrough_witness :
  (active_composition (ex_block (Some setup_absent)) = None \/
   exists setup, active_composition (ex_block (Some setup_absent)) = Some setup /\
                 dom (adapter_modules (ex_block (Some setup_absent))) ∩ flatten setup = ∅) /\
  adapters_forward Z.add (ex_block (Some setup_absent)) ex_hidden ex_input =
    ([], inr (ex_layer_norm (tensor_add Z.add ex_hidden ex_input))).
Proof.
  assert (H : active_composition (ex_block (Some setup_absent)) = None \/
              exists setup, active_composition (ex_block (Some setup_absent)) = Some setup /\
                dom (adapter_modules (ex_block (Some setup_absent))) ∩ flatten setup = ∅).
  { right. exists setup_absent. split; [reflexivity|]. vm_compute. reflexivity. }
  split; [exact H|].
  exact (adapters_forward_passthrough Z.add (ex_block (Some setup_absent)) ex_hidden ex_input H).
Defined.

(** C2, on the code: a Split whose first child is a nested Stack.  The Stack
    is run on the prefix (its calls are logged) but its output is dropped:
    the prefix of the result is the unprocessed slice, where processing each
    segment by hand gives the output of the Stack. *)
Theorem split_discards_nested_stack :
  adapter_split Z.add (ex_block None) setup_split_stack ex_hidden ex_input 0 =
    ([EvPreparams InSplit "a"; EvPreparams InStack "a"; EvAdapter "a"; EvAdapter "b"],
     inr [[[1011; 1022]; [1038; 1050]; [1062; 1074]]]%Z) /\
  split_by_hand Z.add (ex_block None) (Stack [Leaf "a"]) (Leaf "b") 1 ex_hidden ex_input 0 =
    ([EvPreparams InSplit "a"; EvPreparams InStack "a"; EvAdapter "a"; EvAdapter "b"],
     inr [[[3033; 3065]; [1038; 1050]; [1062; 1074]]]%Z) /\
  slice_to 1 (get_adapter_preparams Z.add (ex_block None) cfg_before ex_hidden ex_input).1.1 =
    [[[1011; 1022]]]%Z.
Proof. repeat split; vm_compute; reflexivity. Qed.

(** The depth error is not what every nested composite ends in.  A Fuse
    nested in a Fuse, inside the top-level Stack, ends in [TypeError] at the
    membership test, which is no depth error; and a Stack nested in a Fuse
    whose children are names is run at level 1 and returns. *)
Lemma depth_error_counterexample :
  outcome (adapters_forward Z.add (ex_block (Some setup_fuse_in_fuse)) ex_hidden ex_input) =
    inl TypeError /\
  (forall cls lvl,
     outcome (adapters_forward Z.add (ex_block (Some setup_fuse_in_fuse)) ex_hidden ex_input) <>
       inl (TooDeep cls lvl)) /\
  calls (adapter_fusion Z.add (ex_block None) (Fuse "a,b" [Stack [Leaf "a"]; Leaf "b"])
                        ex_hidden ex_input 0) =
    [EvPreparams InFuse "b"; EvPreparams InStack "a"; EvAdapter "a"; EvAdapter "b";
     EvFusion "a,b"] /\
  outcome (adapter_fusion Z.add (ex_block None) (Fuse "a,b" [Stack [Leaf "a"]; Leaf "b"])
                          ex_hidden ex_input 0) =
    inr [[[3036; 3069]; [3102; 3135]; [3168; 3201]]]%Z.
Proof.
  assert (H : outcome (adapters_forward Z.add (ex_block (Some setup_fuse_in_fuse))
                         ex_hidden ex_input) = inl TypeError)
    by (vm_compute; reflexivity).
  split; [exact H|]. split; [intros cls lvl; rewrite H; discriminate|].
  split; vm_compute; reflexivity.
Qed.

Lemma nested_composite_rejected_witness :
  config_adapters (config (ex_block None)) = Some (ex_adapters None) /\
  adapter_stack Z.add (ex_block None)
                (Stack ([Leaf "a"; Leaf "c"] ++ setup_fuse :: [Leaf "b"])) ex_hidden ex_input 1 =
    ([EvPreparams InStack "a"; EvAdapter "a"], inl (TooDeep "Fuse" 1)).
Proof.
  split; [reflexivity|].
  apply (nested_composite_rejected Z.add (ex_block None) (ex_adapters None)
           [Leaf "a"; Leaf "c"] setup_fuse [Leaf "b"] ex_hidden ex_input 1%nat);
    [reflexivity | lia | reflexivity |].
  repeat constructor.
  - exists "a". split; [reflexivity|]. intros _. exists cfg_before. reflexivity.
  - exists "c". split; [reflexivity|]. intros [A HA]. vm_compute in HA. discriminate.
Defined.

Lemma preparams_resolved_once_witness :
  config_adapters (config (ex_block None)) = Some (ex_adapters None) /\
  (exists tr, calls (adapter_fusion Z.add (ex_block None) setup_fuse ex_hidden ex_input 0) =
                EvPreparams InFuse "b" :: tr /\
              Forall (fun e => own_preparams e = false) tr) /\
  (exists tr, calls (adapter_split Z.add (ex_block None) (Split [Leaf "a"; Leaf "b"] 1)
                       ex_hidden ex_input 0) =
                EvPreparams InSplit "a" :: tr /\
              Forall (fun e => own_preparams e = false) tr).
Proof.
  destruct (preparams_resolved_once Z.add (ex_block None) (ex_adapters None) "a,b" 1
              [Leaf "a"; Leaf "b"] ex_hidden ex_input 0 eq_refl)
    as (Hfuse & Hsplit & _).
  split; [reflexivity|]. split; [apply Hfuse | apply Hsplit]; reflexivity.
Defined.

Lemma adapters_forward_ln_after_witness :
  active_composition (ex_block (Some setup_last_absent)) = Some setup_last_absent /\
  (0 < size (dom (adapter_modules (ex_block (Some setup_last_absent)))
             ∩ flatten setup_last_absent))%nat /\
  adapter_modules (ex_block (Some setup_last_absent)) !! "c" = None /\
  adapters_forward Z.add (ex_block (Some setup_last_absent)) ex_hidden ex_input =
    ([EvPreparams InStack "a"; EvAdapter "a"],
     inr (ex_layer_norm
            (tensor_add Z.add [[[1013; 1025]; [1037; 1049]; [1061; 1073]]]%Z ex_input))).
Proof.
  assert (Hmeet : (0 < size (dom (adapter_modules (ex_block (Some setup_last_absent)))
                             ∩ flatten setup_last_absent))%nat)
    by (vm_compute; lia).
  split; [reflexivity|]. split; [exact Hmeet|]. split; [reflexivity|].
  apply (adapters_forward_ln_after Z.add (ex_block (Some setup_last_absent))
           setup_last_absent ex_hidden ex_input
           [EvPreparams InStack "a"; EvAdapter "a"]
           [[[1013; 1025]; [1037; 1049]; [1061; 1073]]]%Z
           (ex_adapters (Some setup_last_absent)) "c" cfg_after);
    [reflexivity | exact Hmeet | vm_compute; reflexivity | reflexivity | reflexivity
    | reflexivity].
Defined.

Lemma fusion_stacked_up_projections_witness :
  [Leaf "a"; Leaf "b"] <> [] /\
  adapter_fusion Z.add (ex_block None) setup_fuse ex_hidden ex_input 0 =
    ([EvPreparams InFuse "b"; EvAdapter "a"; EvAdapter "b"; EvFusion "a,b"],
     inr [[[2026; 2049]; [2072; 2095]; [2118; 2141]]]%Z) /\
  exists ups : list (Tensor (R := Z)),
    length ups = 2%nat /\ length (torch_stack_permute ups) = batch_extent ups.
Proof.
  assert (Hcs : [Leaf "a"; Leaf "b"] <> []) by discriminate.
  assert (Hrun : adapter_fusion Z.add (ex_block None) setup_fuse ex_hidden ex_input 0 =
            ([EvPreparams InFuse "b"; EvAdapter "a"; EvAdapter "b"; EvFusion "a,b"],
             inr [[[2026; 2049]; [2072; 2095]; [2118; 2141]]]%Z))
    by (vm_compute; reflexivity).
  split; [exact Hcs|]. split; [exact Hrun|].
  destruct (fusion_stacked_up_projections Z.add (ex_block None) "a,b" [Leaf "a"; Leaf "b"]
              ex_hidden ex_input 0 _ _ Hcs Hrun)
    as (h' & q & r & ups & fusion & _ & _ & _ & _ & Hlen & Hbatch & _).
  exists ups. split; [exact Hlen | exact Hbatch].
Defined.

Lemma up_projection_unbound_witness :
  Forall (absent_leaf (ex_block None)) [Leaf "c"] /\
  adapter_modules (ex_block None) !! "a" = Some (ex_adapter 1) /\
  adapter_modules (ex_block None) !! "c" = None /\
  adapters (ex_adapters None) !! "c" = Some cfg_after /\
  adapter_fusion_layer (ex_block None) !! "a,b" = Some ex_fusion /\
  adapter_stack Z.add (ex_block None) (Stack [Leaf "c"]) ex_hidden ex_input 1 =
    ([], inl (UnboundLocalError "up")) /\
  adapter_fusion Z.add (ex_block None) (Fuse "a,b" [Stack [Leaf "c"]; Leaf "b"])
    ex_hidden ex_input 0 =
    ([EvPreparams InFuse "b"], inl (UnboundLocalError "up")).
Proof.
  assert (Habs : Forall (absent_leaf (ex_block None)) [Leaf "c"]).
  { constructor; [|constructor]. exists "c". split; reflexivity. }
  destruct (up_projection_unbound Z.add (ex_block None) [Leaf "c"] "a,b" [Leaf "b"]
              "a" "c" (ex_adapter 1) ex_fusion (ex_adapters None) cfg_after
              ex_hidden ex_input 1 Habs eq_refl eq_refl eq_refl eq_refl eq_refl)
    as (Hstack & _).
  destruct (up_projection_unbound Z.add (ex_block None) [Leaf "c"] "a,b" [Leaf "b"]
              "a" "c" (ex_adapter 1) ex_fusion (ex_adapters None) cfg_after
              ex_hidden ex_input 0 Habs eq_refl eq_refl eq_refl eq_refl eq_refl)
    as (_ & Hfuse & _).
  repeat (split; [first [exact Habs | reflexivity | exact Hstack]|]).
  apply Hfuse; [reflexivity | exists cfg_before; reflexivity].
Defined.

Lemma regularization_loss_zero_and_sum_witness :
  (1 - 1 = 0)%float /\ (0 - 0 = 0)%float /\ (0 * 0 = 0)%float /\ (0 + 0 = 0)%float /\
  (c001 * 0 = 0)%float /\
  Regularization.get_fusion_regularization_loss 0%float 1%float c001
    PrimFloat.add PrimFloat.sub PrimFloat.mul ex_model = 0%float.
Proof.
  repeat (split; [reflexivity|]).
  destruct (RegularizationFacts.regularization_loss_zero_and_sum 0%float 1%float c001
              PrimFloat.add PrimFloat.sub PrimFloat.mul
              eq_refl eq_refl eq_refl eq_refl eq_refl ex_model) as (_ & Hidentity & _).
  apply Hidentity. repeat constructor.
Defined.

End Runs.

(** ** Further facts about the interpreters *)

Section InterpreterLaws.

Context {R : Type} (radd : R -> R -> R).

Implicit Types (self : BertAdaptersBaseMixin (R := R)).
Implicit Types (h i hidden_states input_tensor residual : Tensor (R := R)).

Lemma run_eta {A} (m : M A) : m = (calls m, outcome m).
Proof. destruct m; reflexivity. Qed.

(** *** A Stack skips the names the block does not hold *)

Lemma stack_loop_filter self i lvl cs h up :
  stack_loop radd self i lvl cs h up =
    stack_loop radd self i lvl (filter (fun c => absent_leafb self c = false) cs) h up.
Proof.
  revert h up. induction cs as [|c cs IH]; intros h up; [reflexivity|].
  rewrite filter_cons. destruct (decide (absent_leafb self c = false)) as [Hc|Hc].
  - cbn [stack_loop]. destruct (is_composition_block c && (1 <=? lvl)%nat); [reflexivity|].
    destruct c as [n|cs'|nm' cs'|cs' k'].
    + destruct (adapter_modules self !! n); [|apply IH].
      apply mbind_ext; intros [[h2 q] r]. apply mbind_ext; intros [h3 u]. apply IH.
    + reflexivity.
    + apply mbind_ext; intros h2. apply IH.
    + apply mbind_ext; intros h2. apply IH.
  - destruct c as [n|cs'|nm' cs'|cs' k']; try (exfalso; apply Hc; reflexivity).
    cbn in Hc. apply not_false_is_true, bool_decide_eq_true_1 in Hc.
    cbn [stack_loop is_composition_block andb]. rewrite Hc. apply IH.
Qed.

(** X1. Names that the block does not hold have no effect on a Stack: running
    it is running the Stack without them, with the same calls and the same
    result or exception. *)
Theorem adapter_stack_skips_absent self cs h i lvl :
  adapter_stack radd self (Stack cs) h i lvl =
    adapter_stack radd self (Stack (filter (fun c => absent_leafb self c = false) cs)) h i lvl.
Proof.
  rewrite !adapter_stack_unfold by reflexivity. cbn [children_of]. apply stack_loop_filter.
Qed.

(** *** A Stack runs its children one after the other *)

Lemma stack_loop_bound_up self i lvl cs h u tr x :
  stack_loop radd self i lvl cs h None = (tr, inr x) ->
  stack_loop radd self i lvl cs h (Some u) = (tr, inr x).
Proof.
  revert h. induction cs as [|c cs IH]; intros h; [discriminate|].
  cbn [stack_loop]. destruct (is_composition_block c && (1 <=? lvl)%nat); [auto|].
  destruct c as [n|cs'|nm' cs'|cs' k']; auto; try discriminate.
  destruct (adapter_modules self !! n); auto.
Qed.

Lemma stack_loop_app self i lvl cs1 cs2 h up tr h1 u1 :
  stack_loop radd self i lvl cs1 h up = (tr, inr (h1, u1)) ->
  stack_loop radd self i lvl (cs1 ++ cs2) h up =
    (tr ++ calls (stack_loop radd self i lvl cs2 h1 (Some u1)),
     outcome (stack_loop radd self i lvl cs2 h1 (Some u1))).
Proof.
  revert h up tr. induction cs1 as [|c cs IH]; intros h up tr Hrun.
  - cbn in Hrun. destruct up as [u|]; [|discriminate].
    injection Hrun as <- <- <-. cbn [app]. apply run_eta.
  - cbn [app stack_loop] in *.
    destruct (is_composition_block c && (1 <=? lvl)%nat); [discriminate|].
    assert (Hbind : forall {A} (m : M A) k1 k2 t0,
              (forall a t, k1 a = (t, inr (h1, u1)) ->
                 k2 a = (t ++ calls (stack_loop radd self i lvl cs2 h1 (Some u1)),
                         outcome (stack_loop radd self i lvl cs2 h1 (Some u1)))) ->
              (m ≫= k1) = (t0, inr (h1, u1)) ->
              (m ≫= k2) = (t0 ++ calls (stack_loop radd self i lvl cs2 h1 (Some u1)),
                            outcome (stack_loop radd self i lvl cs2 h1 (Some u1)))).
    { intros A [t [e|a]] k1 k2 t0 Hk Hm; [discriminate|].
      rewrite (mbind_inr _ k1 _ _ eq_refl) in Hm. rewrite (mbind_inr _ k2 _ _ eq_refl).
      injection Hm as <- Ho.
      rewrite (Hk a (calls (k1 a))) by (rewrite <- Ho; apply run_eta).
      cbn [calls outcome fst snd]. rewrite app_assoc. reflexivity. }
    destruct c as [n|cs'|nm' cs'|cs' k'].
    + destruct (adapter_modules self !! n); [|apply IH; exact Hrun].
      revert Hrun. apply Hbind. intros [[h2 q] r] t. apply Hbind.
      intros [h3 u] t'. apply IH.
    + discriminate Hrun.
    + revert Hrun. apply Hbind. intros h2 t. apply IH.
    + revert Hrun. apply Hbind. intros h2 t. apply IH.
Qed.

(** X2. Stacking composes: when the Stack of the first children returns
    [h1] and the Stack of the remaining children returns on [h1], the Stack of
    all children makes the calls of the first followed by those of the second
    and returns what the second returns. *)
Theorem adapter_stack_app self cs1 cs2 h i lvl tr1 h1 u1 tr2 h2 u2 :
  adapter_stack radd self (Stack cs1) h i lvl = (tr1, inr (h1, u1)) ->
  adapter_stack radd self (Stack cs2) h1 i lvl = (tr2, inr (h2, u2)) ->
  adapter_stack radd self (Stack (cs1 ++ cs2)) h i lvl = (tr1 ++ tr2, inr (h2, u2)).
Proof.
  rewrite !adapter_stack_unfold by reflexivity. cbn [children_of]. intros H1 H2.
  rewrite (stack_loop_app _ _ _ _ _ _ _ _ _ _ H1).
  rewrite (stack_loop_bound_up _ _ _ _ _ u1 _ _ H2). reflexivity.
Qed.

End InterpreterLaws.

Section InterpreterRuns.

Context {R : Type} (radd : R -> R -> R).

Implicit Types (self : BertAdaptersBaseMixin (R := R)).
Implicit Types (h i hidden_states input_tensor residual : Tensor (R := R)).

Lemma meets_registry self (setup : Block) a :
  is_Some (adapter_modules self !! a) -> a ∈ flatten setup ->
  (0 < size (dom (adapter_modules self) ∩ flatten setup))%nat.
Proof.
  intros Ha Hin.
  assert (Hne : size (dom (adapter_modules self) ∩ flatten setup) ≠ 0%nat).
  { apply size_non_empty_iff. intros Hempty.
    apply (not_elem_of_empty (C := gset string) a). rewrite <- Hempty.
    apply elem_of_intersection. split; [apply elem_of_dom; exact Ha | exact Hin]. }
  lia.
Qed.

(** X3. Composing one hosted adapter through the interpreter is invoking it
    directly: with the Stack of the single name [a] active, a forward pass
    resolves the pre-parameters of [a] once and runs its module once on them.
    When the configuration of [a] sets [original_ln_after] it returns the
    layer norm of the output of the adapter plus [input_tensor]; when it does
    not, it returns the output of the adapter as it is, with neither the sum
    nor the layer norm. *)
Theorem adapters_forward_single_adapter self a (A : Adapter (R := R)) cfgs cfg h i :
  active_composition self = Some (Stack [Leaf a]) ->
  adapter_modules self !! a = Some A ->
  config_adapters (config self) = Some cfgs ->
  adapters cfgs !! a = Some cfg ->
  adapters_forward radd self h i =
    ([EvPreparams InStack a; EvAdapter a],
     inr (let '(h', _, residual) := get_adapter_preparams radd self cfg h i in
          let out := (A h' residual).1 in
          if original_ln_after cfg then layer_norm self (tensor_add radd out i) else out)).
Proof.
  intros Hact Ha Hcfgs Hcfg. unfold adapters_forward. rewrite Hact.
  rewrite bool_decide_eq_true_2
    by (apply (meets_registry self _ a);
        [rewrite Ha; eauto | apply elem_of_union_l, elem_of_singleton; reflexivity]).
  unfold dispatch_setup. rewrite adapter_stack_unfold by reflexivity.
  cbn [children_of stack_loop is_composition_block andb]. rewrite Ha.
  rewrite (resolve_preparams_some _ _ _ _ _ _ _ _ Hcfgs Hcfg).
  unfold last_config_ln_after. rewrite Hcfgs. cbn [last]. rewrite Hcfg.
  destruct (get_adapter_preparams radd self cfg h i) as [[h' q] r].
  unfold call_adapter. cbn. destruct (A h' r) as [out up].
  destruct (original_ln_after cfg); reflexivity.
Qed.

(** X4. A composition whose last adapter is unknown to the configuration of
    the model fails with a [TypeError] after the interpreter has returned: the
    calls of the interpreter have been made, and no value comes back. *)
Theorem adapters_forward_last_unconfigured self setup h i tr hs cfgs n :
  active_composition self = Some setup ->
  (0 < size (dom (adapter_modules self) ∩ flatten setup))%nat ->
  dispatch_setup radd self setup h i = (tr, inr hs) ->
  config_adapters (config self) = Some cfgs ->
  last setup = Some n ->
  adapters cfgs !! n = None ->
  adapters_forward radd self h i = (tr, inl TypeError).
Proof.
  intros Hact Hmeet Hrun Hcfgs Hlast Hn. unfold adapters_forward.
  rewrite Hact, bool_decide_eq_true_2 by exact Hmeet.
  rewrite (mbind_inr _ _ _ _ Hrun).
  unfold last_config_ln_after. rewrite Hcfgs, Hlast, Hn. cbn.
  rewrite app_nil_r. reflexivity.
Qed.

(** *** Fusing hosted adapters *)

Lemma fusion_loop_leaves self outer h i r lvl names (mods : list (Adapter (R := R))) up ups :
  Forall2 (fun a A => adapter_modules self !! a = Some A) names mods ->
  fusion_loop radd self outer h i r lvl (map Leaf names) up ups =
    (map EvAdapter names, inr (ups ++ map (fun A : Adapter => (A h r).2) mods)).
Proof.
  intros Hmods. revert up ups.
  induction Hmods as [|a A names mods Ha _ IH]; intros up ups.
  - cbn. rewrite app_nil_r. reflexivity.
  - cbn [map fusion_loop fusion_child]. rewrite Ha. unfold call_adapter.
    destruct (A h r) as [out u] eqn:HA. cbn.
    rewrite IH. cbn. rewrite <- app_assoc. reflexivity.
Qed.

(** X5. A Fuse over hosted adapters applies them in parallel: every adapter
    runs once, in the order of the children, on the same hidden states and
    residual resolved from the configuration of the last one, and the fusion
    module of the group receives the query, the stacked up-projections of all
    of them as keys and as values, and the residual. *)
Theorem adapter_fusion_parallel self nm names (mods : list (Adapter (R := R)))
    (fusion : BertFusion (R := R)) cfgs n cfg h i lvl :
  names <> [] ->
  Forall2 (fun a A => adapter_modules self !! a = Some A) names mods ->
  config_adapters (config self) = Some cfgs ->
  last (Fuse nm (map Leaf names)) = Some n ->
  adapters cfgs !! n = Some cfg ->
  adapter_fusion_layer self !! nm = Some fusion ->
  adapter_fusion radd self (Fuse nm (map Leaf names)) h i lvl =
    (EvPreparams InFuse n :: map EvAdapter names ++ [EvFusion nm],
     inr (let '(h', query, residual) := get_adapter_preparams radd self cfg h i in
          let stacked :=
            torch_stack_permute (map (fun A : Adapter => (A h' residual).2) mods) in
          fusion query stacked stacked residual)).
Proof.
  intros Hne Hmods Hcfgs Hlast Hcfg Hfus.
  rewrite adapter_fusion_unfold by reflexivity.
  rewrite Hlast, (mbind_inr _ _ _ _ (resolve_preparams_some _ _ _ _ _ _ _ _ Hcfgs Hcfg)).
  destruct (get_adapter_preparams radd self cfg h i) as [[h' q] r].
  cbn [children_of class_name block_name].
  rewrite (mbind_inr _ _ _ _ (fusion_loop_leaves _ _ _ _ _ _ _ _ _ _ Hmods)).
  cbn [app]. rewrite length_map.
  assert (Hpos : (0 <? length mods)%nat = true).
  { apply Nat.ltb_lt. rewrite <- (Forall2_length Hmods).
    destruct names; [congruence | cbn; lia]. }
  rewrite Hpos. unfold call_fusion. rewrite Hfus. reflexivity.
Qed.

(** *** Splitting at any index *)

Lemma slices_cat (k : Z) (t : Tensor (R := R)) :
  torch_cat_dim1 [slice_to k t; slice_from k t] = t.
Proof.
  cbn. unfold slice_to, slice_from.
  induction t as [|row t IH]; cbn; [reflexivity|].
  rewrite take_drop. f_equal. exact IH.
Qed.

(** X6. A Split none of whose two children is held by the block hands back
    the hidden states its pre-parameters resolved, for every split index:
    cutting a tensor at an index, also a negative one or one beyond the
    sequence, and concatenating the two segments gives the tensor back. *)
Theorem adapter_split_absent_identity self x y k cfgs cfg h i lvl :
  adapter_modules self !! x = None ->
  adapter_modules self !! y = None ->
  config_adapters (config self) = Some cfgs ->
  adapters cfgs !! x = Some cfg ->
  adapter_split radd self (Split [Leaf x; Leaf y] k) h i lvl =
    ([EvPreparams InSplit x], inr (get_adapter_preparams radd self cfg h i).1.1).
Proof.
  intros Hx Hy Hcfgs Hcfg. rewrite adapter_split_unfold by reflexivity.
  cbn [first]. rewrite (mbind_inr _ _ _ _ (resolve_preparams_some _ _ _ _ _ _ _ _ Hcfgs Hcfg)).
  destruct (get_adapter_preparams radd self cfg h i) as [[h' q] r].
  cbn [block_split_index children_of split_loop]. rewrite Hx, Hy.
  rewrite mbind_mret. unfold mret, M_ret, ret. cbn [calls outcome fst snd app].
  rewrite slices_cat. reflexivity.
Qed.

Lemma call_adapter_run n (A : Adapter (R := R)) h r :
  call_adapter n A h r = ([EvAdapter n], inr (A h r)).
Proof. reflexivity. Qed.

Lemma slice_bound_le k L : (slice_bound k L <= L)%nat.
Proof. unfold slice_bound. destruct (k <? 0)%Z eqn:E; lia. Qed.

Lemma cat_lengths (a b : Tensor (R := R)) :
  map length (torch_cat_dim1 [a; b]) = zip_with Nat.add (map length a) (map length b).
Proof.
  cbn. revert b. induction a as [|x a IH]; intros [|y b]; cbn; try reflexivity.
  rewrite length_app. f_equal. apply IH.
Qed.

Lemma slice_to_lengths k (t : Tensor (R := R)) :
  map length (slice_to k t) = map (fun L => slice_bound k L) (map length t).
Proof.
  unfold slice_to. rewrite !map_map. apply map_ext. intros row.
  rewrite length_take. pose proof (slice_bound_le k (length row)). lia.
Qed.

Lemma slice_from_lengths k (t : Tensor (R := R)) :
  map length (slice_from k t) = map (fun L => (L - slice_bound k L)%nat) (map length t).
Proof.
  unfold slice_from. rewrite !map_map. apply map_ext. intros row.
  rewrite length_drop. reflexivity.
Qed.

(** X7. A Split over two hosted adapters that keep the sequence lengths of
    hidden states given with a residual of the same lengths returns, for every
    split index, a tensor with the batch size and the sequence lengths of the
    hidden states its pre-parameters resolved, provided the resolved residual
    has these lengths: the two processed segments always fit together. *)
Theorem adapter_split_keeps_lengths self a b (A B : Adapter (R := R)) k cfgs cfg h i lvl :
  adapter_modules self !! a = Some A ->
  adapter_modules self !! b = Some B ->
  config_adapters (config self) = Some cfgs ->
  adapters cfgs !! a = Some cfg ->
  (forall x r, map length r = map length x -> map length (A x r).1 = map length x) ->
  (forall x r, map length r = map length x -> map length (B x r).1 = map length x) ->
  map length (get_adapter_preparams radd self cfg h i).2 =
    map length (get_adapter_preparams radd self cfg h i).1.1 ->
  exists out,
    adapter_split radd self (Split [Leaf a; Leaf b] k) h i lvl =
      ([EvPreparams InSplit a; EvAdapter a; EvAdapter b], inr out) /\
    map length out = map length (get_adapter_preparams radd self cfg h i).1.1.
Proof.
  intros Ha Hb Hcfgs Hcfg HA HB Hshape. rewrite adapter_split_unfold by reflexivity.
  cbn [first]. rewrite (mbind_inr _ _ _ _ (resolve_preparams_some _ _ _ _ _ _ _ _ Hcfgs Hcfg)).
  destruct (get_adapter_preparams radd self cfg h i) as [[h' q] r].
  cbn [fst snd] in Hshape.
  cbn [block_split_index children_of split_loop]. rewrite Ha, Hb.
  unfold index. cbn [lookup list_lookup]. rewrite !mbind_mret.
  assert (HA' : map length (A (slice_to k h') (slice_to k r)).1 = map length (slice_to k h'))
    by (apply HA; rewrite !slice_to_lengths, Hshape; reflexivity).
  assert (HB' : map length (B (slice_from k h') (slice_from k r)).1 =
                map length (slice_from k h'))
    by (apply HB; rewrite !slice_from_lengths, Hshape; reflexivity).
  rewrite (mbind_inr _ _ _ _ (call_adapter_run _ _ _ _)).
  destruct (A (slice_to k h') (slice_to k r)) as [p up0].
  cbn [lookup list_lookup list_insert insert]. rewrite !mbind_mret.
  rewrite (mbind_inr _ _ _ _ (call_adapter_run _ _ _ _)).
  destruct (B (slice_from k h') (slice_from k r)) as [s up1].
  eexists. split; [reflexivity|].
  cbn [fst snd] in *. change (<[1%nat:=s]> (<[0%nat:=p]> [slice_to k h'; slice_from k h']))
    with [p; s].
  rewrite cat_lengths, HA', HB', slice_to_lengths, slice_from_lengths.
  generalize (map length h'). clear. intros ls.
  induction ls as [|L ls IH]; cbn; [reflexivity|].
  f_equal; [|exact IH]. pose proof (slice_bound_le k L). lia.
Qed.

End InterpreterRuns.

(** ** Facts about the registries *)

Section ParameterFacts.

Lemma unfreeze_idemp (module : list bool) : unfreeze (unfreeze module) = unfreeze module.
Proof. unfold unfreeze. rewrite map_map. reflexivity. Qed.

Lemma unfreeze_at_lookup key (modules : gmap string (list bool)) n :
  unfreeze_at key modules !! n =
    if decide (n = key) then unfreeze <$> modules !! n else modules !! n.
Proof.
  unfold unfreeze_at. destruct (decide (n = key)) as [->|Hne].
  - destruct (modules !! key) as [module|] eqn:E.
    + rewrite lookup_insert_eq. reflexivity.
    + rewrite E. reflexivity.
  - destruct (modules !! key); [rewrite lookup_insert_ne by congruence|]; reflexivity.
Qed.

Lemma unfreeze_fold_lookup (names : gset string) (modules : gmap string (list bool)) n :
  set_fold unfreeze_at modules names !! n =
    if decide (n ∈ names) then unfreeze <$> modules !! n else modules !! n.
Proof.
  revert n. refine (set_fold_ind_L
    (fun (r : gmap string (list bool)) (X : gset string) =>
       forall n, r !! n = if decide (n ∈ X) then unfreeze <$> modules !! n else modules !! n)
    unfreeze_at modules _ _ names).
  - intros n. destruct (decide (n ∈ (∅ : gset string))); [set_solver | reflexivity].
  - intros x X r Hx IH n. rewrite unfreeze_at_lookup, IH.
    destruct (decide (n = x)) as [->|Hne].
    + destruct (decide (x ∈ X)); [contradiction|].
      destruct (decide (x ∈ {[x]} ∪ X)); [reflexivity | set_solver].
    + destruct (decide (n ∈ X)); destruct (decide (n ∈ {[x]} ∪ X)); try reflexivity; set_solver.
Qed.

Lemma unfreeze_children_lookup (cs : list Block) (modules : gmap string (list bool)) key :
  fold_left
    (fun fusion_parameters sub_setup =>
       match sub_setup with
       | Fuse name _ => unfreeze_at name fusion_parameters
       | _ => fusion_parameters
       end) cs modules !! key =
    if existsb (fun c => bool_decide (block_name c = Some key)) cs
    then unfreeze <$> modules !! key else modules !! key.
Proof.
  revert modules. induction cs as [|c cs IH]; intros modules; [reflexivity|].
  cbn [fold_left existsb]. rewrite IH.
  destruct c as [n|cs'|nm cs'|cs' k]; cbn [block_name];
    try (rewrite bool_decide_eq_false_2 by discriminate; reflexivity).
  rewrite unfreeze_at_lookup.
  destruct (decide (key = nm)) as [->|Hne].
  - rewrite bool_decide_eq_true_2 by reflexivity. cbn [orb].
    destruct (existsb _ cs); [|reflexivity].
    destruct (modules !! nm); cbn; [rewrite unfreeze_idemp|]; reflexivity.
  - rewrite bool_decide_eq_false_2 by congruence. reflexivity.
Qed.

(** X8. [enable_adapters] with [unfreeze_adapters] makes every parameter of an
    adapter of the block trainable when the name of the adapter occurs in the
    setup, and leaves the parameters of every other adapter as they are;
    without the flag no adapter parameter changes. *)
Theorem enable_adapters_unfreezes_setup (self : BlockParameters) (adapter_setup : Block)
    (unfreeze_adapters unfreeze_fusion : bool) (n : string) :
  adapter_parameters (enable_adapters self adapter_setup unfreeze_adapters unfreeze_fusion) !! n =
    if unfreeze_adapters && bool_decide (n ∈ flatten adapter_setup)
    then unfreeze <$> adapter_parameters self !! n
    else adapter_parameters self !! n.
Proof.
  unfold enable_adapters. cbn [adapter_parameters].
  destruct unfreeze_adapters; [|reflexivity].
  rewrite unfreeze_fold_lookup. cbn [andb].
  destruct (decide (n ∈ flatten adapter_setup)) as [Hin|Hout].
  - rewrite bool_decide_eq_true_2 by exact Hin. reflexivity.
  - rewrite bool_decide_eq_false_2 by exact Hout. reflexivity.
Qed.

(** X9. [enable_adapters] with [unfreeze_fusion] makes the parameters of a
    fusion layer trainable exactly when its key is the name of the setup, a
    Fuse, or of a child of the setup that is a Fuse; a Fuse further down in
    the setup is not reached, and without the flag no fusion parameter
    changes. *)
Theorem enable_adapters_unfreezes_fusion (self : BlockParameters) (adapter_setup : Block)
    (unfreeze_adapters unfreeze_fusion : bool) (key : string) :
  fusion_parameters (enable_adapters self adapter_setup unfreeze_adapters unfreeze_fusion) !! key =
    if unfreeze_fusion && reaches_fusion adapter_setup key
    then unfreeze <$> fusion_parameters self !! key
    else fusion_parameters self !! key.
Proof.
  unfold enable_adapters, reaches_fusion. cbn [fusion_parameters].
  destruct unfreeze_fusion; [|reflexivity]. cbn [andb].
  rewrite unfreeze_children_lookup.
  destruct adapter_setup as [n|cs|nm cs|cs k]; cbn [block_name children_of];
    try (rewrite bool_decide_eq_false_2 by discriminate; reflexivity).
  rewrite unfreeze_at_lookup.
  destruct (decide (key = nm)) as [->|Hne].
  - rewrite bool_decide_eq_true_2 by reflexivity. cbn [orb].
    destruct (existsb _ cs); [|reflexivity].
    destruct (fusion_parameters self !! nm); cbn; [rewrite unfreeze_idemp|]; reflexivity.
  - rewrite bool_decide_eq_false_2 by congruence. reflexivity.
Qed.

Lemma raised_flags_lookup before after :
  (forall key, after !! key = before !! key \/ after !! key = unfreeze <$> before !! key) ->
  raised_flags before after.
Proof.
  intros H key. destruct (H key) as [-> | ->].
  - destruct (before !! key) as [b|]; [|exact I].
    induction b; constructor; auto.
  - destruct (before !! key) as [b|]; [|exact I]. cbn.
    induction b; cbn; constructor; auto.
Qed.

(** X10. [enable_adapters] never freezes anything and never adds or removes a
    module: in both dictionaries the keys and the number of parameters of each
    module are kept, and every parameter that required a gradient before the
    call still does after it, whatever the setup and the flags. *)
Theorem enable_adapters_only_unfreezes (self : BlockParameters) (adapter_setup : Block)
    (unfreeze_adapters unfreeze_fusion : bool) :
  raised_flags (adapter_parameters self)
    (adapter_parameters (enable_adapters self adapter_setup unfreeze_adapters unfreeze_fusion)) /\
  raised_flags (fusion_parameters self)
    (fusion_parameters (enable_adapters self adapter_setup unfreeze_adapters unfreeze_fusion)).
Proof.
  split; apply raised_flags_lookup; intros key; unfold enable_adapters.
  - cbn [adapter_parameters]. destruct unfreeze_adapters; [|auto].
    rewrite unfreeze_fold_lookup. destruct (decide _); auto.
  - cbn [fusion_parameters]. destruct unfreeze_fusion; [|auto].
    rewrite unfreeze_children_lookup.
    assert (Htop : forall m : gmap string (list bool),
              match adapter_setup with
              | Fuse name _ => unfreeze_at name m
              | _ => m
              end !! key = m !! key \/
              match adapter_setup with
              | Fuse name _ => unfreeze_at name m
              | _ => m
              end !! key = unfreeze <$> m !! key).
    { intros m. destruct adapter_setup; auto.
      rewrite unfreeze_at_lookup. destruct (decide _); auto. }
    destruct (Htop (fusion_parameters self)) as [-> | ->];
      destruct (existsb _ _); auto.
    right. destruct (fusion_parameters self !! key); cbn; [rewrite unfreeze_idemp|]; reflexivity.
Qed.

End ParameterFacts.

Section RegistryFacts.

Context {R : Type} (radd : R -> R -> R).
Variable settings : string -> AdapterSettings.
Variable hidden_size : Z.
Variable Adapter_init : Z -> Z -> bool -> bool -> string -> bool -> Adapter (R := R).
Variable BertFusion_init : Config -> BertFusion (R := R).
Variable common_config_value : ModelAdaptersConfig -> list string -> string -> Raised + bool.

Implicit Types (self : BertAdaptersBaseMixin (R := R)).

Local Abbreviation add := (add_adapter settings hidden_size Adapter_init).
Local Abbreviation add_layer := (BertLayer_add_adapter settings hidden_size Adapter_init).
Local Abbreviation add_encoder := (BertEncoder_add_adapter settings hidden_size Adapter_init).
Local Abbreviation add_fusion := (add_fusion_layer BertFusion_init common_config_value).

Local Abbreviation built := (fun name => new_adapter hidden_size Adapter_init (settings name)).

(** What decides the outcome of [add_adapter] at a location: the
    configuration of the model, not the block. *)
Lemma add_adapter_outcome key self name :
  add key self name =
    match config_adapters (config self) with
    | None => (self, Some (RaisedAttributeError "adapters"))
    | Some cfgs =>
        match adapters cfgs !! name, location_enabled (settings name) key with
        | None, _ => (self, None)
        | Some _, None => (self, Some (RaisedKeyError key))
        | Some _, Some false => (self, None)
        | Some _, Some true =>
            if decide (reduction_factor (settings name) = 0)%Z
            then (self, Some RaisedZeroDivisionError)
            else ({| layer_norm := layer_norm self;
                     adapter_modules := <[name := built name]> (adapter_modules self);
                     adapter_fusion_layer := adapter_fusion_layer self;
                     config := config self |}, None)
        end
    end.
Proof.
  unfold add_adapter. destruct (config_adapters (config self)) as [cfgs|]; [|reflexivity].
  destruct (adapters cfgs !! name); [|reflexivity].
  destruct (location_enabled (settings name) key) as [[|]|]; reflexivity.
Qed.

(** X11. When [add_adapter] returns, the block holds the adapter exactly if it
    held it before or the model configures the name and enables it at the
    location of the block; every other adapter, the fusion layers, the layer
    norm and the configuration are as before.  A name that is not configured,
    or not enabled here, is ignored without an exception. *)
Theorem add_adapter_hosts key self name self' :
  add key self name = (self', None) ->
  (is_Some (adapter_modules self' !! name) <->
     is_Some (adapter_modules self !! name) \/
     exists cfgs, config_adapters (config self) = Some cfgs /\
                  is_Some (adapters cfgs !! name) /\
                  location_enabled (settings name) key = Some true) /\
  (forall n, n <> name -> adapter_modules self' !! n = adapter_modules self !! n) /\
  adapter_fusion_layer self' = adapter_fusion_layer self /\
  layer_norm self' = layer_norm self /\
  config self' = config self.
Proof.
  rewrite add_adapter_outcome.
  destruct (config_adapters (config self)) as [cfgs|] eqn:Hcfgs; [|discriminate].
  destruct (adapters cfgs !! name) as [c|] eqn:Hc.
  - destruct (location_enabled (settings name) key) as [[|]|] eqn:Hkey; try discriminate.
    + destruct (decide _); [discriminate|]. intros [= <-]. cbn.
      repeat split; auto.
      * intros _. right. exists cfgs. rewrite Hc. eauto.
      * intros _. rewrite lookup_insert_eq. eauto.
      * intros n' Hn. rewrite lookup_insert_ne by congruence. reflexivity.
    + intros [= <-]. repeat split; auto.
      intros [H | (cfgs' & _ & _ & H)]; [exact H | discriminate].
  - intros [= <-]. repeat split; auto.
    intros [H | (cfgs' & Hcfgs' & [c Hc'] & _)]; [exact H | congruence].
Qed.

(** X12. The division by [reduction_factor] sits behind the guard of
    [add_adapter].  With a [reduction_factor] of 0 in a model that has adapter
    configurations, the call ends in [ZeroDivisionError] when the name is
    configured and enabled at the location of the block, returns without
    doing anything when the name is not configured or the location is
    disabled, and ends in [KeyError] when the configuration lacks the location
    key.  In each of these cases the block is left exactly as it was. *)
Theorem add_adapter_zero_reduction_factor key self name cfgs :
  config_adapters (config self) = Some cfgs ->
  reduction_factor (settings name) = 0%Z ->
  add key self name =
    (self,
     match adapters cfgs !! name with
     | None => None
     | Some _ =>
         match location_enabled (settings name) key with
         | None => Some (RaisedKeyError key)
         | Some true => Some RaisedZeroDivisionError
         | Some false => None
         end
     end).
Proof.
  intros Hcfgs Hzero. unfold add_adapter. rewrite Hcfgs.
  destruct (adapters cfgs !! name) as [c|]; [|reflexivity].
  destruct (location_enabled (settings name) key) as [[|]|]; try reflexivity.
  rewrite decide_True by exact Hzero. reflexivity.
Qed.

Lemma location_enabled_mh (s : AdapterSettings) :
  location_enabled s "mh_adapter" = Some (mh_adapter s).
Proof. reflexivity. Qed.

Lemma location_enabled_output (s : AdapterSettings) :
  location_enabled s "output_adapter" = Some (output_adapter s).
Proof. reflexivity. Qed.

Lemma add_adapter_error_uniform key self1 self2 name :
  config self1 = config self2 -> (add key self1 name).2 = (add key self2 name).2.
Proof.
  intros Hc. rewrite !add_adapter_outcome, Hc.
  destruct (config_adapters (config self2)) as [cfgs|]; [|reflexivity].
  destruct (adapters cfgs !! name); [|reflexivity].
  destruct (location_enabled (settings name) key) as [[|]|]; try reflexivity.
  destruct (decide _); reflexivity.
Qed.

Lemma add_layer_failure (l l' : BertLayer (R := R)) name e :
  config (attention_output l) = config (output l) ->
  add_layer l name = (l', Some e) -> l' = l.
Proof.
  intros Hshared. unfold BertLayer_add_adapter, on_both_blocks.
  rewrite !add_adapter_outcome, Hshared.
  destruct l as [a o]; cbn [attention_output output] in *.
  destruct (config_adapters (config o)) as [cfgs|]; [|intros H; inversion H; reflexivity].
  destruct (adapters cfgs !! name); [|intros H; inversion H; reflexivity].
  rewrite location_enabled_mh, location_enabled_output.
  destruct (mh_adapter (settings name)), (output_adapter (settings name));
    destruct (decide (reduction_factor (settings name) = 0)%Z);
    intros H; try discriminate H; inversion H; reflexivity.
Qed.

Lemma add_layer_error_uniform (l1 l2 : BertLayer (R := R)) name c :
  config (attention_output l1) = c -> config (output l1) = c ->
  config (attention_output l2) = c -> config (output l2) = c ->
  (add_layer l1 name).2 = (add_layer l2 name).2.
Proof.
  intros H1 H2 H3 H4. unfold BertLayer_add_adapter, on_both_blocks.
  rewrite !add_adapter_outcome, H1, H2, H3, H4.
  destruct (config_adapters c) as [cfgs|]; [|reflexivity].
  destruct (adapters cfgs !! name); [|reflexivity].
  rewrite location_enabled_mh, location_enabled_output.
  destruct (mh_adapter (settings name)), (output_adapter (settings name));
    destruct (decide (reduction_factor (settings name) = 0)%Z); reflexivity.
Qed.

Lemma for_layers_length visit (method : BertLayer (R := R) -> Mutation BertLayer) i layers :
  length (for_layers visit method i layers).1 = length layers.
Proof.
  revert i. induction layers as [|l layers IH]; intros i; [reflexivity|].
  cbn [for_layers]. specialize (IH (S i)).
  destruct (visit i).
  - destruct (method l) as [l' [e|]]; [reflexivity|].
    destruct (for_layers visit method (S i) layers). cbn in *. congruence.
  - destruct (for_layers visit method (S i) layers). cbn in *. congruence.
Qed.

Lemma for_layers_skipped visit (method : BertLayer (R := R) -> Mutation BertLayer) i layers j l :
  layers !! j = Some l -> visit (i + j)%nat = false ->
  (for_layers visit method i layers).1 !! j = Some l.
Proof.
  revert i j. induction layers as [|l0 layers IH]; intros i j Hl Hv; [discriminate|].
  cbn [for_layers]. destruct j as [|j].
  - rewrite Nat.add_0_r in Hv. rewrite Hv. injection Hl as ->.
    destruct (for_layers visit method (S i) layers). reflexivity.
  - cbn in Hl. specialize (IH (S i) j Hl). rewrite <- Nat.add_succ_comm in Hv.
    specialize (IH Hv).
    destruct (visit i).
    + destruct (method l0) as [l' [e|]]; [exact Hl|].
      destruct (for_layers visit method (S i) layers). exact IH.
    + destruct (for_layers visit method (S i) layers). exact IH.
Qed.

Lemma for_layers_visited visit (method : BertLayer (R := R) -> Mutation BertLayer)
    i layers layers' j l :
  for_layers visit method i layers = (layers', None) ->
  layers !! j = Some l -> visit (i + j)%nat = true ->
  method l = (default l (layers' !! j), None).
Proof.
  revert i j layers'. induction layers as [|l0 layers IH]; intros i j layers' Hrun Hl Hv;
    [discriminate|].
  cbn [for_layers] in Hrun. destruct j as [|j].
  - rewrite Nat.add_0_r in Hv. rewrite Hv in Hrun. injection Hl as ->.
    destruct (method l) as [l' [e|]]; [discriminate|].
    destruct (for_layers visit method (S i) layers). injection Hrun as <- _. reflexivity.
  - cbn in Hl. rewrite <- Nat.add_succ_comm in Hv.
    destruct (visit i).
    + destruct (method l0) as [l' [e|]]; [discriminate|].
      destruct (for_layers visit method (S i) layers) as [rest e] eqn:Hrest.
      injection Hrun as <- ->. cbn. eapply IH; eauto.
    + destruct (for_layers visit method (S i) layers) as [rest e] eqn:Hrest.
      injection Hrun as <- ->. cbn. eapply IH; eauto.
Qed.

Lemma for_layers_no_error visit (method : BertLayer (R := R) -> Mutation BertLayer) i layers :
  Forall (fun l => (method l).2 = None) layers ->
  (for_layers visit method i layers).2 = None.
Proof.
  intros Hall. revert i. induction Hall as [|l layers Hl _ IH]; intros i; [reflexivity|].
  cbn [for_layers]. specialize (IH (S i)).
  destruct (visit i).
  - destruct (method l) as [l' [e|]]; [discriminate|].
    destruct (for_layers visit method (S i) layers). exact IH.
  - destruct (for_layers visit method (S i) layers). exact IH.
Qed.

Lemma for_layers_atomic visit i (layers layers' : list (BertLayer (R := R))) name c e :
  Forall (fun l => config (attention_output l) = c /\ config (output l) = c) layers ->
  for_layers visit (fun l => add_layer l name) i layers = (layers', Some e) ->
  layers' = layers.
Proof.
  intros Hshared. revert i layers'.
  induction Hshared as [|l layers [Ha Ho] Hrest IH]; intros i layers' Hrun.
  - cbn in Hrun. congruence.
  - cbn [for_layers] in Hrun. destruct (visit i).
    + destruct (add_layer l name) as [l' [e'|]] eqn:Hl.
      * injection Hrun as <- _. f_equal. eapply add_layer_failure; [congruence | exact Hl].
      * exfalso.
        assert (Hnone : (for_layers visit (fun l => add_layer l name) (S i) layers).2 = None).
        { apply for_layers_no_error. apply Forall_forall. intros l2 Hin.
          destruct (proj1 (Forall_forall _ _) Hrest l2 Hin) as [Ha2 Ho2]. cbn.
          rewrite <- (add_layer_error_uniform l l2 name c) by assumption.
          rewrite Hl. reflexivity. }
        destruct (for_layers visit (fun l => add_layer l name) (S i) layers) as [rest e2].
        cbn in Hnone. subst e2. discriminate.
    + destruct (for_layers visit (fun l => add_layer l name) (S i) layers) as [rest e2] eqn:Hr.
      injection Hrun as <- ->. f_equal. eapply IH; eauto.
Qed.

(** X13. Adding an adapter to an encoder whose blocks all carry the
    configuration of the model is all or nothing: when the call ends in an
    exception, no block of any layer has changed. *)
Theorem encoder_add_adapter_atomic (self self' : BertEncoder (R := R)) name e :
  shares_config self ->
  add_encoder self name = (self', Some e) ->
  self' = self.
Proof.
  intros Hshared. unfold BertEncoder_add_adapter.
  destruct (config_adapters (encoder_config self)) as [cfgs|]; [|congruence].
  destruct (adapters cfgs !! name); [|congruence].
  destruct (for_layers _ _ 0 (layer self)) as [layers e'] eqn:Hrun.
  intros [= <- ->]. destruct self as [ls c]. cbn in *. f_equal.
  eapply for_layers_atomic; [exact Hshared | exact Hrun].
Qed.

Lemma single_name_disjoint self name :
  adapter_modules self !! name = None ->
  dom (adapter_modules self) ∩ flatten (Stack [Leaf name]) = ∅.
Proof.
  intros Habs. apply set_eq. intros x.
  rewrite elem_of_intersection, elem_of_dom. cbn [flatten].
  rewrite elem_of_union, elem_of_singleton. split.
  - intros [[m Hm] [-> | Hx]]; [congruence|]. exfalso. revert Hx. apply not_elem_of_empty.
  - intros Hx. exfalso. revert Hx. apply not_elem_of_empty.
Qed.

Lemma passthrough_disjoint self (setup : Block) h i :
  active_composition self = Some setup ->
  dom (adapter_modules self) ∩ flatten setup = ∅ ->
  adapters_forward radd self h i = ([], inr (layer_norm self (tensor_add radd h i))).
Proof.
  intros Hact Hdisj. unfold adapters_forward.
  rewrite Hact, Hdisj, size_empty, bool_decide_eq_false_2 by lia. reflexivity.
Qed.

(** X14. The encoder keeps an adapter out of the layers its configuration
    lists under [leave_out]: whatever the outcome of the call, the number of
    layers is kept and a layer whose index is listed is exactly as before.
    Hence a block of such a layer that did not hold the adapter answers a
    forward pass in which the Stack of that adapter is active with the plain
    [LayerNorm(hidden_states + input_tensor)]. *)
Theorem encoder_add_adapter_leave_out (self : BertEncoder (R := R)) name j l :
  let self' := (add_encoder self name).1 in
  let left_out := default [] (leave_out (settings name)) in
  length (layer self') = length (layer self) /\
  (layer self !! j = Some l -> Z.of_nat j ∈ left_out ->
     layer self' !! j = Some l /\
     forall block h i,
       block = attention_output l \/ block = output l ->
       active_composition block = Some (Stack [Leaf name]) ->
       adapter_modules block !! name = None ->
       adapters_forward radd block h i =
         ([], inr (layer_norm block (tensor_add radd h i)))).
Proof.
  cbn zeta. unfold BertEncoder_add_adapter.
  destruct (config_adapters (encoder_config self)) as [cfgs|];
    [destruct (adapters cfgs !! name)|].
  2, 3: split; [reflexivity|]; intros Hl _; split; [exact Hl|];
        intros block h i _ Hact Habs; apply (passthrough_disjoint _ _ _ _ Hact);
        apply single_name_disjoint; exact Habs.
  pose proof (for_layers_length
                (fun i => bool_decide (Z.of_nat i ∉ default [] (leave_out (settings name))))
                (fun l => add_layer l name) 0 (layer self)) as Hlen.
  pose proof (for_layers_skipped
                (fun i => bool_decide (Z.of_nat i ∉ default [] (leave_out (settings name))))
                (fun l => add_layer l name) 0 (layer self) j l) as Hskip.
  destruct (for_layers _ _ 0 (layer self)) as [layers e]. cbn in *.
  split; [exact Hlen|]. intros Hl Hin. split.
  - apply Hskip; [exact Hl|]. apply bool_decide_eq_false_2. auto.
  - intros block h i _ Hact Habs. apply (passthrough_disjoint _ _ _ _ Hact).
    apply single_name_disjoint. exact Habs.
Qed.

(** X15. Registration and forward pass fit together: after [add_adapter] has
    returned on a block that did not hold the adapter, a forward pass in which
    the Stack of that adapter is active runs the module that [add_adapter]
    constructed, on the pre-parameters of the adapter, when the location of
    the block is enabled for it, and is the plain layer norm of the residual
    sum when it is not. *)
Theorem add_adapter_then_forward key self name cfgs cfg self' h i :
  config_adapters (config self) = Some cfgs ->
  adapters cfgs !! name = Some cfg ->
  active_setup cfgs = Some (Stack [Leaf name]) ->
  adapter_modules self !! name = None ->
  add key self name = (self', None) ->
  adapters_forward radd self' h i =
    if bool_decide (location_enabled (settings name) key = Some true)
    then ([EvPreparams InStack name; EvAdapter name],
          inr (let '(h', _, residual) := get_adapter_preparams radd self cfg h i in
               let out := (built name h' residual).1 in
               if original_ln_after cfg
               then layer_norm self (tensor_add radd out i) else out))
    else ([], inr (layer_norm self (tensor_add radd h i))).
Proof.
  intros Hcfgs Hcfg Hact Habs. rewrite add_adapter_outcome, Hcfgs, Hcfg.
  assert (Hpass : adapters_forward radd self h i =
                    ([], inr (layer_norm self (tensor_add radd h i)))).
  { apply (passthrough_disjoint _ (Stack [Leaf name])).
    - unfold active_composition. rewrite Hcfgs. exact Hact.
    - apply single_name_disjoint. exact Habs. }
  destruct (location_enabled (settings name) key) as [[|]|] eqn:Hkey; try discriminate.
  - destruct (decide _); [discriminate|]. intros [= <-].
    rewrite bool_decide_eq_true_2 by reflexivity.
    unfold adapters_forward, active_composition. cbn [config]. rewrite Hcfgs, Hact.
    rewrite bool_decide_eq_true_2.
    2:{ apply (meets_registry _ _ name); cbn [adapter_modules];
        [rewrite lookup_insert_eq; eauto|].
        cbn [flatten]. apply elem_of_union_l, elem_of_singleton. reflexivity. }
    unfold dispatch_setup. rewrite adapter_stack_unfold by reflexivity.
    cbn [children_of stack_loop is_composition_block andb adapter_modules].
    rewrite lookup_insert_eq.
    unfold resolve_preparams, last_config_ln_after. cbn [config]. rewrite Hcfgs.
    cbn [last]. rewrite Hcfg.
    unfold get_adapter_preparams. cbn [config layer_norm].
    unfold call_adapter. cbn.
    match goal with
    | |- context [new_adapter ?a ?b ?c ?x ?y] => destruct (new_adapter a b c x y) as [out up]
    end.
    destruct (original_ln_after cfg); reflexivity.
  - intros [= <-]. rewrite bool_decide_eq_false_2 by discriminate. exact Hpass.
Qed.

(** *** Fusion layers and their keys *)

Lemma split_comma_nonempty s : split_comma s <> [].
Proof.
  destruct s as [|c s]; cbn; [discriminate|].
  destruct (decide _); [discriminate|]. destruct (split_comma s); discriminate.
Qed.

Lemma join_split_comma s : join_comma (split_comma s) = s.
Proof.
  induction s as [|c s IH]; [reflexivity|]. cbn [split_comma].
  destruct (decide (c = ","%char)) as [->|Hc].
  - cbn [join_comma]. pose proof (split_comma_nonempty s).
    destruct (split_comma s) as [|p ps] eqn:E; [contradiction|].
    rewrite IH. reflexivity.
  - pose proof (split_comma_nonempty s).
    destruct (split_comma s) as [|p ps] eqn:E; [contradiction|].
    cbn [join_comma] in *. destruct ps; cbn; rewrite <- IH; reflexivity.
Qed.

Lemma split_comma_app s t :
  comma_free s -> split_comma (s +:+ String ","%char t) = s :: split_comma t.
Proof.
  unfold comma_free. induction s as [|c s IH]; intros Hfree.
  - reflexivity.
  - simpl in *. destruct (decide (c = ","%char)); [discriminate|].
    pose proof (split_comma_nonempty s).
    destruct (split_comma s) as [|p ps] eqn:E; [contradiction|].
    injection Hfree as -> ->. rewrite IH by reflexivity. reflexivity.
Qed.

Lemma split_join_comma names :
  names <> [] -> Forall comma_free names -> split_comma (join_comma names) = names.
Proof.
  intros Hne Hfree. induction Hfree as [|n names Hn Hrest IH]; [contradiction|].
  cbn [join_comma]. destruct names as [|n2 names]; [exact Hn|].
  rewrite split_comma_app by exact Hn. f_equal. apply IH. discriminate.
Qed.

(** X16. Splitting a comma-separated string of names and joining the pieces
    gives the string back, and joining names that contain no comma and
    splitting the result gives the names back.  So [add_fusion_layer] files
    the fusion layer of a string under that very string, and the list of names
    and their joined string are two spellings of the same call. *)
Theorem add_fusion_layer_key key self (joined : string) (names : list string) :
  join_comma (split_comma joined) = joined /\
  (names <> [] -> Forall comma_free names ->
     split_comma (join_comma names) = names /\
     add_fusion key self (inr (join_comma names)) = add_fusion key self (inl names)).
Proof.
  split; [apply join_split_comma|]. intros Hne Hfree.
  pose proof (split_join_comma names Hne Hfree) as Hsplit.
  split; [exact Hsplit|]. unfold add_fusion_layer. rewrite Hsplit. reflexivity.
Qed.

(** X17. What [add_fusion_layer] leaves behind is decided by
    [common_config_value] for the names and the location of the block.  When
    it returns a true value, a Fuse named by the joined names finds its fusion
    module in the block: the lookup of the interpreter returns the module
    constructed from the configuration, and every other fusion layer and every
    adapter is as before.  When it returns a false value the call returns and
    the block is unchanged; when it raises, the call ends in that exception
    and the block is unchanged. *)
Theorem add_fusion_layer_then_lookup key self (joined : string) cfgs query
    (up_list : Tensor4 (R := R)) residual :
  config_adapters (config self) = Some cfgs ->
  let self' := (add_fusion key self (inr joined)).1 in
  let e := (add_fusion key self (inr joined)).2 in
  match common_config_value cfgs (split_comma joined) key with
  | inr true =>
      e = None /\
      call_fusion self' (Some joined) query up_list residual =
        ([EvFusion joined],
         inr (BertFusion_init (config self) query up_list up_list residual)) /\
      (forall other, other <> joined ->
         adapter_fusion_layer self' !! other = adapter_fusion_layer self !! other) /\
      adapter_modules self' = adapter_modules self
  | inr false => e = None /\ self' = self
  | inl raised => e = Some raised /\ self' = self
  end.
Proof.
  intros Hcfgs. cbn zeta. unfold add_fusion_layer. rewrite Hcfgs.
  destruct (common_config_value cfgs (split_comma joined) key) as [raised|[|]];
    cbn [fst snd]; [split; reflexivity | | split; reflexivity].
  rewrite join_split_comma. split; [reflexivity|]. split; [|split].
  - unfold call_fusion. cbn [adapter_fusion_layer]. rewrite lookup_insert_eq. reflexivity.
  - intros other Hne. cbn [adapter_fusion_layer].
    rewrite lookup_insert_ne by congruence. reflexivity.
  - reflexivity.
Qed.

Lemma for_layers_all (method : BertLayer (R := R) -> Mutation BertLayer) i layers :
  Forall (fun l => (method l).2 = None) layers ->
  for_layers (fun _ => true) method i layers = (map (fun l => (method l).1) layers, None).
Proof.
  intros Hall. revert i. induction Hall as [|l layers Hl _ IH]; intros i; [reflexivity|].
  cbn [for_layers map]. destruct (method l) as [l' [e|]]; [discriminate|].
  rewrite IH. reflexivity.
Qed.

Lemma add_fusion_layer_outcome key self joined cfgs (shared : bool) :
  config_adapters (config self) = Some cfgs ->
  common_config_value cfgs (split_comma joined) key = inr shared ->
  add_fusion key self (inr joined) =
    (if shared
     then {| layer_norm := layer_norm self;
             adapter_modules := adapter_modules self;
             adapter_fusion_layer :=
               <[joined := BertFusion_init (config self)]> (adapter_fusion_layer self);
             config := config self |}
     else self, None).
Proof.
  intros Hcfgs Hshared. unfold add_fusion_layer. rewrite Hcfgs, Hshared, join_split_comma.
  destruct shared; reflexivity.
Qed.

(** X27. A fusion layer goes to every layer of the encoder: [leave_out] plays
    no part in [add_fusion_layer].  In an encoder whose blocks carry the
    configuration of the model, when [common_config_value] returns for the
    names at both locations, the call returns, and in every layer each of the
    two blocks holds the new fusion module under the joined names when the
    value returned for its location is true, and is unchanged when it is
    false; no adapter is touched. *)
Theorem encoder_add_fusion_layer_everywhere (self : BertEncoder (R := R)) joined cfgs
    (shared_mh shared_output : bool) j l :
  shares_config self ->
  config_adapters (encoder_config self) = Some cfgs ->
  common_config_value cfgs (split_comma joined) "mh_adapter" = inr shared_mh ->
  common_config_value cfgs (split_comma joined) "output_adapter" = inr shared_output ->
  layer self !! j = Some l ->
  let result :=
    BertEncoder_add_fusion_layer BertFusion_init common_config_value self (inr joined) in
  result.2 = None /\
  exists l',
    layer result.1 !! j = Some l' /\
    adapter_fusion_layer (attention_output l') !! joined =
      (if shared_mh
       then Some (BertFusion_init (encoder_config self))
       else adapter_fusion_layer (attention_output l) !! joined) /\
    adapter_fusion_layer (output l') !! joined =
      (if shared_output
       then Some (BertFusion_init (encoder_config self))
       else adapter_fusion_layer (output l) !! joined) /\
    adapter_modules (attention_output l') = adapter_modules (attention_output l) /\
    adapter_modules (output l') = adapter_modules (output l).
Proof.
  intros Hshared Hcfgs Hmh Hout Hl. cbn zeta. unfold BertEncoder_add_fusion_layer.
  assert (Hlayer : forall l0, l0 ∈ layer self ->
            BertLayer_add_fusion_layer BertFusion_init common_config_value l0 (inr joined) =
              ({| attention_output :=
                    (add_fusion "mh_adapter" (attention_output l0) (inr joined)).1;
                  output := (add_fusion "output_adapter" (output l0) (inr joined)).1 |}, None)).
  { intros l0 Hin. destruct (proj1 (list.Forall_forall _ _) Hshared l0 Hin) as [Ha Ho].
    unfold BertLayer_add_fusion_layer, on_both_blocks.
    rewrite (add_fusion_layer_outcome _ _ _ cfgs shared_mh)
      by (try rewrite Ha; assumption).
    rewrite (add_fusion_layer_outcome _ _ _ cfgs shared_output)
      by (try rewrite Ho; assumption).
    reflexivity. }
  rewrite for_layers_all.
  2:{ apply list.Forall_forall. intros l0 Hin. rewrite (Hlayer l0 Hin). reflexivity. }
  cbn [fst snd layer]. split; [reflexivity|].
  assert (Hin : l ∈ layer self) by (eapply list_elem_of_lookup_2; exact Hl).
  destruct (proj1 (list.Forall_forall _ _) Hshared l Hin) as [Ha Ho].
  eexists. split; [rewrite lookup_map, Hl; reflexivity|].
  rewrite (Hlayer l Hin). cbn [fst attention_output output].
  rewrite (add_fusion_layer_outcome _ _ _ cfgs shared_mh) by (try rewrite Ha; assumption).
  rewrite (add_fusion_layer_outcome _ _ _ cfgs shared_output) by (try rewrite Ho; assumption).
  cbn [fst]. rewrite Ha, Ho.
  destruct shared_mh, shared_output;
    cbn [adapter_fusion_layer adapter_modules]; rewrite ?lookup_insert_eq; auto.
Qed.

End RegistryFacts.

(** ** Facts about the prediction heads *)

Module HeadsFacts.
Import Heads.

Section DictFacts.

Context {K V : Type} `{EqDecision K}.

Lemma dict_set_fresh (d : Dict K V) k v :
  k ∉ map fst d -> dict_set d k v = d ++ [(k, v)].
Proof.
  induction d as [|[k' v'] d IH]; cbn; [reflexivity|].
  intros Hk. destruct (decide (k = k')) as [->|Hne].
  - exfalso. apply Hk. left.
  - f_equal. apply IH. intros Hin. apply Hk. right. exact Hin.
Qed.

Lemma dict_comprehension_distinct {A} (key : A -> K) (value : A -> V) (xs : list A) :
  NoDup (map key xs) ->
  dict_comprehension key value xs = map (fun x => (key x, value x)) xs.
Proof.
  unfold dict_comprehension.
  enough (Hacc : forall acc : Dict K V,
            NoDup (map fst acc ++ map key xs) ->
            fold_left (fun d x => dict_set d (key x) (value x)) xs acc =
              acc ++ map (fun x => (key x, value x)) xs)
    by (intros Hnd; apply (Hacc []); exact Hnd).
  induction xs as [|x xs IH]; intros acc Hnd; cbn.
  - rewrite app_nil_r. reflexivity.
  - cbn in Hnd. apply list.NoDup_app in Hnd as (Hacc & Hdisj & Hxs).
    apply list.NoDup_cons in Hxs as [Hx Hxs].
    rewrite dict_set_fresh by (intros Hin; apply (Hdisj _ Hin); left).
    rewrite IH, <- app_assoc; [reflexivity|].
    rewrite map_app. cbn. rewrite <- app_assoc. cbn.
    apply list.NoDup_app. split; [exact Hacc|]. split.
    + intros k Hk Hin. apply elem_of_cons in Hin as [->|Hin].
      * apply (Hdisj _ Hk). left.
      * apply (Hdisj _ Hk). right. exact Hin.
    + apply list.NoDup_cons. split; assumption.
Qed.

Lemma dict_get_elem_of (d : Dict K V) k v :
  NoDup (map fst d) -> (dict_get d k = Some v <-> (k, v) ∈ d).
Proof.
  induction d as [|[k' v'] d IH]; cbn; intros Hnd.
  - split; [discriminate | intros Hin; inversion Hin].
  - apply list.NoDup_cons in Hnd as [Hk' Hnd]. destruct (decide (k = k')) as [->|Hne].
    + split.
      * intros [= ->]. left.
      * intros Hin. apply elem_of_cons in Hin as [[= ->]|Hin]; [reflexivity|].
        exfalso. apply Hk'. apply (list_elem_of_fmap_2 fst _ _ Hin).
    + rewrite (IH Hnd). split.
      * intros Hin. right. exact Hin.
      * intros Hin. apply elem_of_cons in Hin as [[= -> ->]|Hin]; [contradiction | exact Hin].
Qed.

End DictFacts.

Lemma label_inj (a b : Z) : "LABEL_" +:+ pretty a = "LABEL_" +:+ pretty b -> a = b.
Proof. cbn. intros [= Heq]. apply (inj pretty). exact Heq. Qed.

Lemma range_NoDup (n : Z) : NoDup (range n).
Proof.
  unfold range. apply NoDup_fmap_2; [intros x y; apply Nat2Z.inj | apply NoDup_seq].
Qed.

(** X18. The labels a head gets when it brings none: for [n] labels they are
    [LABEL_0] to [LABEL_(n-1)], pairwise distinct, numbered in order, none for
    a non-positive [n]; the inverse dictionary maps every number back to its
    label. *)
Theorem default_labels (n : Z) :
  default_label2id n = map (fun num => ("LABEL_" +:+ pretty num, num)) (range n) /\
  invert_labels (default_label2id n) =
    map (fun num => (num, "LABEL_" +:+ pretty num)) (range n) /\
  length (default_label2id n) = Z.to_nat n.
Proof.
  assert (Hlabels : default_label2id n =
                      map (fun num => ("LABEL_" +:+ pretty num, num)) (range n)).
  { unfold default_label2id. apply dict_comprehension_distinct.
    apply NoDup_fmap_2; [intros a b; apply label_inj | apply range_NoDup]. }
  split; [exact Hlabels|]. split.
  - unfold invert_labels. rewrite Hlabels, dict_comprehension_distinct.
    + rewrite map_map. reflexivity.
    + rewrite map_map. cbn. rewrite map_id. apply range_NoDup.
  - rewrite Hlabels. unfold range. rewrite !length_map, length_seq. reflexivity.
Qed.

Section MixinFacts.

Context {Outputs Mask Kwargs : Type}.

Implicit Types (self : BertModelHeadsMixin (Outputs := Outputs) (Mask := Mask) (Kwargs := Kwargs)).
Implicit Types (head : PredictionHead (Outputs := Outputs) (Mask := Mask) (Kwargs := Kwargs)).

(** X19. A second head under a name the model already has is refused unless
    [overwrite_ok] is set: the call raises the [ValueError] that names the
    head and changes nothing. *)
Theorem add_prediction_head_refuses_duplicate self head :
  is_Some (heads self !! name head) ->
  add_prediction_head self head false =
    (self, Some (RaisedValueError
                   ("Model already contains a head with name '" +:+ name head
                    +:+ "'. Use overwrite_ok=True to force overwrite."))).
Proof.
  intros [old Hold]. unfold add_prediction_head.
  rewrite bool_decide_eq_false_2 by (rewrite Hold; discriminate). reflexivity.
Qed.

Lemma set_active_head_labelled self head labels :
  heads self !! name head = Some head ->
  label2id (heap self (head_config head)) = Some (Some labels) ->
  set_active_head self (Some (name head)) =
    ({| heap := heap self; heads := heads self; prediction_heads := prediction_heads self;
        _active_head := Some (name head);
        config_label2id := Some labels;
        config_id2label := Some (invert_labels labels) |}, None).
Proof.
  intros Hhead Hlabels. unfold set_active_head. cbn [heads heap].
  rewrite Hhead, Hlabels. unfold get_labels_dict. cbn [heads heap _active_head].
  rewrite Hhead, Hlabels. reflexivity.
Qed.

(** X20. Adding a head under a free name, or with [overwrite_ok], to a model
    registers it and makes it the active head: the head is found under its
    name, the prediction-head configuration of the model points to the
    configuration object of the head, that object has received its labels, the
    label dictionaries of the model configuration are those labels and their
    inverse, and every other head is as before. *)
Theorem add_prediction_head_registers self head overwrite_ok labels :
  heads self !! name head = None \/ overwrite_ok = true ->
  label2id (fill_label2id (heap self (head_config head))) = Some (Some labels) ->
  exists self',
    add_prediction_head self head overwrite_ok = (self', None) /\
    heads self' !! name head = Some head /\
    prediction_heads self' !! name head = Some (head_config head) /\
    heap self' (head_config head) = fill_label2id (heap self (head_config head)) /\
    _active_head self' = Some (name head) /\
    config_label2id self' = Some labels /\
    config_id2label self' = Some (invert_labels labels) /\
    (forall other, other <> name head -> heads self' !! other = heads self !! other).
Proof.
  intros Hfree Hlabels. unfold add_prediction_head.
  assert (Hgo : bool_decide (heads self !! name head = None) || overwrite_ok = true).
  { destruct Hfree as [Hnone | ->]; [|apply orb_true_r].
    rewrite bool_decide_eq_true_2 by exact Hnone. reflexivity. }
  rewrite Hgo.
  erewrite set_active_head_labelled.
  - eexists. split; [reflexivity|]. cbn.
    rewrite !lookup_insert_eq, fn_lookup_insert. repeat split; try reflexivity.
    intros other Hne. rewrite lookup_insert_ne by congruence. reflexivity.
  - cbn [heads]. rewrite lookup_insert_eq. reflexivity.
  - cbn [heap]. rewrite fn_lookup_insert. exact Hlabels.
Qed.

Lemma fill_label2id_choices (c : HeadConfig) n :
  label2id c = None \/ label2id c = Some None ->
  num_choices c = Some n ->
  label2id (fill_label2id c) = Some (Some (default_label2id n)).
Proof.
  intros Hnone Hnc. unfold fill_label2id.
  destruct c as [ty nl nc l]; cbn in *. subst nc.
  destruct Hnone as [-> | ->]; destruct nl; reflexivity.
Qed.

(** X21. The number of choices wins over the number of labels: a head that
    brings no label dictionary (the key is missing or holds [None]) and whose
    configuration has both ["num_labels"] and ["num_choices"] is added with
    the numbered labels of ["num_choices"]; they become the labels of the
    configuration object of the head and of the model configuration, with
    their inverse as [id2label]. *)
Theorem add_prediction_head_choices_override self head overwrite_ok nl nc :
  heads self !! name head = None \/ overwrite_ok = true ->
  label2id (heap self (head_config head)) = None \/
    label2id (heap self (head_config head)) = Some None ->
  num_labels (heap self (head_config head)) = Some nl ->
  num_choices (heap self (head_config head)) = Some nc ->
  exists self',
    add_prediction_head self head overwrite_ok = (self', None) /\
    label2id (heap self' (head_config head)) = Some (Some (default_label2id nc)) /\
    config_label2id self' = Some (default_label2id nc) /\
    config_id2label self' =
      Some (map (fun num => (num, "LABEL_" +:+ pretty num)) (range nc)).
Proof.
  intros Hfree Hnone _ Hnc. unfold add_prediction_head.
  assert (Hgo : bool_decide (heads self !! name head = None) || overwrite_ok = true).
  { destruct Hfree as [Hfree | ->]; [|apply orb_true_r].
    rewrite bool_decide_eq_true_2 by exact Hfree. reflexivity. }
  rewrite Hgo.
  erewrite set_active_head_labelled.
  - eexists. split; [reflexivity|]. cbn [heap config_label2id config_id2label].
    rewrite fn_lookup_insert. split; [apply fill_label2id_choices; assumption|].
    split; [reflexivity|].
    unfold invert_labels, default_label2id.
    rewrite (dict_comprehension_distinct (fun num => "LABEL_" +:+ pretty num))
      by (apply NoDup_fmap_2; [intros a b; apply label_inj | apply range_NoDup]).
    rewrite dict_comprehension_distinct.
    + rewrite map_map. reflexivity.
    + rewrite map_map. cbn. rewrite map_id. apply range_NoDup.
  - cbn [heads]. rewrite lookup_insert_eq. reflexivity.
  - cbn [heap]. rewrite fn_lookup_insert. apply fill_label2id_choices; assumption.
Qed.

(** X22. A head whose configuration has neither labels nor a number of labels
    or choices makes [add_prediction_head] end in [KeyError('label2id')], and
    one whose ["label2id"] is [None] in [AttributeError]; in both cases the
    head has been registered and made active before the exception. *)
Theorem add_prediction_head_unlabelled self head :
  heads self !! name head = None ->
  num_labels (heap self (head_config head)) = None ->
  num_choices (heap self (head_config head)) = None ->
  let '(self', e) := add_prediction_head self head false in
  heads self' !! name head = Some head /\
  _active_head self' = Some (name head) /\
  match label2id (heap self (head_config head)) with
  | None => e = Some (RaisedKeyError "label2id")
  | Some None => e = Some (RaisedAttributeError "items")
  | Some (Some labels) => e = None
  end.
Proof.
  intros Hfree Hnl Hnc. unfold add_prediction_head.
  rewrite bool_decide_eq_true_2 by exact Hfree. cbn [orb].
  unfold set_active_head. cbn [heads heap]. rewrite lookup_insert_eq, fn_lookup_insert.
  unfold fill_label2id. rewrite Hnl, Hnc.
  destruct (label2id (heap self (head_config head))) as [[labels|]|] eqn:Hl.
  - rewrite Hl. unfold get_labels_dict. cbn [heads heap _active_head].
    rewrite lookup_insert_eq, fn_lookup_insert, Hl. cbn.
    rewrite lookup_insert_eq. auto.
  - rewrite Hl. unfold get_labels_dict. cbn [heads heap _active_head].
    rewrite lookup_insert_eq, fn_lookup_insert, Hl. cbn.
    rewrite lookup_insert_eq. auto.
  - rewrite Hl. cbn. rewrite lookup_insert_eq. auto.
Qed.

(** X23. [get_labels_dict] inverts the labels of a head: when labels and
    numbers are pairwise distinct, a number is mapped to a label exactly when
    the label is mapped to that number, and [get_labels] lists the labels in
    the order of the head. *)
Theorem get_labels_dict_inverts self n head labels :
  heads self !! n = Some head ->
  label2id (heap self (head_config head)) = Some (Some labels) ->
  NoDup (map fst labels) ->
  NoDup (map snd labels) ->
  exists id2label,
    get_labels_dict self (Some n) = inr (Some id2label) /\
    (forall label id, dict_get id2label id = Some label <-> dict_get labels label = Some id) /\
    get_labels self (Some n) = inr (Some (map fst labels)).
Proof.
  intros Hhead Hlabels Hkeys Hids.
  assert (Hinv : invert_labels labels = map (fun item => (item.2, item.1)) labels)
    by (apply dict_comprehension_distinct; exact Hids).
  exists (invert_labels labels). unfold get_labels, get_labels_dict.
  rewrite Hhead, Hlabels. split; [reflexivity|]. split.
  - intros label id. rewrite Hinv.
    rewrite dict_get_elem_of by (rewrite map_map; exact Hids).
    rewrite dict_get_elem_of by exact Hkeys.
    rewrite list_elem_of_fmap. split.
    + intros ([l i] & [= -> ->] & Hin). exact Hin.
    + intros Hin. exists (label, id). split; [reflexivity | exact Hin].
  - unfold dict_values. rewrite Hinv, map_map. reflexivity.
Qed.

(** X24. [forward_head] and the empty name.  A name that is not empty selects
    the head of that name whatever the active head is, and raises
    [ValueError] when the model has no such head.  No name and the empty name
    both fall back on the active head; when that is [None] or empty as well,
    the outputs come back untouched, even if a head is registered under the
    empty name. *)
Theorem forward_head_dispatch self outputs n attention_mask return_dict kwargs :
  (truthy (_active_head self) = false ->
     forward_head self outputs None attention_mask return_dict kwargs = inr outputs /\
     forward_head self outputs (Some "") attention_mask return_dict kwargs = inr outputs) /\
  (n <> "" ->
     forward_head self outputs (Some n) attention_mask return_dict kwargs =
       match heads self !! n with
       | Some head => inr (head_forward head outputs attention_mask return_dict kwargs)
       | None => inl (RaisedValueError ("Unknown head_name '" +:+ n +:+ "'"))
       end) /\
  (_active_head self = Some n ->
     forward_head self outputs None attention_mask return_dict kwargs =
       forward_head self outputs (Some n) attention_mask return_dict kwargs /\
     forward_head self outputs (Some "") attention_mask return_dict kwargs =
       forward_head self outputs (Some n) attention_mask return_dict kwargs).
Proof.
  unfold forward_head. split; [|split].
  - intros Hnone. cbn [truthy].
    destruct (_active_head self) as [[|c s]|]; try discriminate; split; reflexivity.
  - intros Hn. destruct n as [|c s]; [congruence|]. reflexivity.
  - intros ->. cbn [truthy]. destruct n as [|c s]; split; reflexivity.
Qed.

(** X25. After a head with a non-empty name has been added, a forward pass
    that names no head runs the head just added. *)
Theorem add_prediction_head_then_forward self head overwrite_ok self'
    outputs attention_mask return_dict kwargs :
  name head <> "" ->
  add_prediction_head self head overwrite_ok = (self', None) ->
  forward_head self' outputs None attention_mask return_dict kwargs =
    inr (head_forward head outputs attention_mask return_dict kwargs).
Proof.
  intros Hname. unfold add_prediction_head.
  destruct (bool_decide _ || overwrite_ok); [|discriminate].
  unfold set_active_head. cbn [heads heap]. rewrite lookup_insert_eq.
  destruct (label2id _) as [labels|]; [|discriminate].
  destruct (get_labels_dict _ _); [discriminate|]. intros [= <-].
  unfold forward_head. cbn [truthy _active_head heads].
  destruct (name head) as [|c s] eqn:E; [congruence|].
  rewrite <- E, lookup_insert_eq. reflexivity.
Qed.

(** X26. [add_prediction_head] keeps the prediction-head configuration of the
    model in step with its heads: if it listed the heads with their
    configuration objects before the call, it does so after it, whether the
    call returned or raised. *)
Theorem add_prediction_head_consistent self head overwrite_ok :
  Heads_consistent self ->
  Heads_consistent (add_prediction_head self head overwrite_ok).1.
Proof.
  unfold Heads_consistent, add_prediction_head. intros Hcons.
  destruct (bool_decide _ || overwrite_ok); [|exact Hcons].
  unfold set_active_head. cbn [heads heap prediction_heads].
  rewrite lookup_insert_eq.
  assert (Hins : <[name head := head_config head]> (prediction_heads self) =
                 head_config <$> <[name head := head]> (heads self))
    by (rewrite fmap_insert, Hcons; reflexivity).
  destruct (label2id _) as [labels|]; [|exact Hins].
  destruct (get_labels_dict _ _); exact Hins.
Qed.

End MixinFacts.
End HeadsFacts.

(** ** The registries, the heads and further runs on concrete objects *)

Section MoreRuns.
Import Examples MoreExamples.

Local Abbreviation ran_a := ([[[1013; 1025]; [1037; 1049]; [1061; 1073]]]%Z : Tensor (R := Z)).

Lemma adapter_stack_app_witness :
  adapter_stack Z.add (ex_block None) (Stack [Leaf "a"]) ex_hidden ex_input 0 =
    ([EvPreparams InStack "a"; EvAdapter "a"],
     inr (ran_a, [[[1012; 1023]; [1034; 1045]; [1056; 1067]]]%Z)) /\
  adapter_stack Z.add (ex_block None) (Stack [Leaf "b"]) ran_a ex_input 0 =
    ([EvPreparams InStack "b"; EvAdapter "b"],
     inr ([[[3038; 3072]; [3106; 3140]; [3174; 3208]]]%Z,
          [[[2025; 2047]; [2069; 2091]; [2113; 2135]]]%Z)) /\
  adapter_stack Z.add (ex_block None) (Stack ([Leaf "a"] ++ [Leaf "b"])) ex_hidden ex_input 0 =
    ([EvPreparams InStack "a"; EvAdapter "a"] ++ [EvPreparams InStack "b"; EvAdapter "b"],
     inr ([[[3038; 3072]; [3106; 3140]; [3174; 3208]]]%Z,
          [[[2025; 2047]; [2069; 2091]; [2113; 2135]]]%Z)).
Proof.
  assert (H1 : adapter_stack Z.add (ex_block None) (Stack [Leaf "a"]) ex_hidden ex_input 0 =
                 ([EvPreparams InStack "a"; EvAdapter "a"],
                  inr (ran_a, [[[1012; 1023]; [1034; 1045]; [1056; 1067]]]%Z)))
    by (vm_compute; reflexivity).
  assert (H2 : adapter_stack Z.add (ex_block None) (Stack [Leaf "b"]) ran_a ex_input 0 =
                 ([EvPreparams InStack "b"; EvAdapter "b"],
                  inr ([[[3038; 3072]; [3106; 3140]; [3174; 3208]]]%Z,
                       [[[2025; 2047]; [2069; 2091]; [2113; 2135]]]%Z)))
    by (vm_compute; reflexivity).
  split; [exact H1|]. split; [exact H2|].
  exact (adapter_stack_app Z.add (ex_block None) [Leaf "a"] [Leaf "b"] ex_hidden ex_input 0
           _ _ _ _ _ _ H1 H2).
Defined.

Lemma adapters_forward_single_adapter_witness :
  active_composition (ex_block (Some (Stack [Leaf "a"]))) = Some (Stack [Leaf "a"]) /\
  adapter_modules (ex_block (Some (Stack [Leaf "a"]))) !! "a" = Some (ex_adapter 1) /\
  adapters (ex_adapters (Some (Stack [Leaf "a"]))) !! "a" = Some cfg_before /\
  adapters_forward Z.add (ex_block (Some (Stack [Leaf "a"]))) ex_hidden ex_input =
    ([EvPreparams InStack "a"; EvAdapter "a"], inr ran_a).
Proof.
  repeat (split; [reflexivity|]).
  exact (adapters_forward_single_adapter Z.add (ex_block (Some (Stack [Leaf "a"]))) "a"
           (ex_adapter 1) (ex_adapters (Some (Stack [Leaf "a"]))) cfg_before ex_hidden ex_input
           eq_refl eq_refl eq_refl eq_refl).
Defined.

Lemma adapters_forward_last_unconfigured_witness :
  active_composition (ex_block (Some (Stack [Leaf "a"; Leaf "z"]))) =
    Some (Stack [Leaf "a"; Leaf "z"]) /\
  adapters (ex_adapters (Some (Stack [Leaf "a"; Leaf "z"]))) !! "z" = None /\
  adapters_forward Z.add (ex_block (Some (Stack [Leaf "a"; Leaf "z"]))) ex_hidden ex_input =
    ([EvPreparams InStack "a"; EvAdapter "a"], inl TypeError).
Proof.
  repeat (split; [reflexivity|]).
  apply (adapters_forward_last_unconfigured Z.add
           (ex_block (Some (Stack [Leaf "a"; Leaf "z"]))) (Stack [Leaf "a"; Leaf "z"])
           ex_hidden ex_input [EvPreparams InStack "a"; EvAdapter "a"] ran_a
           (ex_adapters (Some (Stack [Leaf "a"; Leaf "z"]))) "z");
    [reflexivity | vm_compute; lia | vm_compute; reflexivity | reflexivity | reflexivity
    | reflexivity].
Defined.

Lemma adapter_fusion_parallel_witness :
  ["a"; "b"] <> [] /\
  Forall2 (fun a A => adapter_modules (ex_block None) !! a = Some A)
          ["a"; "b"] [ex_adapter 1; ex_adapter 2] /\
  adapter_fusion Z.add (ex_block None) (Fuse "a,b" (map Leaf ["a"; "b"])) ex_hidden ex_input 0 =
    ([EvPreparams InFuse "b"; EvAdapter "a"; EvAdapter "b"; EvFusion "a,b"],
     inr [[[2026; 2049]; [2072; 2095]; [2118; 2141]]]%Z).
Proof.
  assert (Hmods : Forall2 (fun a A => adapter_modules (ex_block None) !! a = Some A)
                          ["a"; "b"] [ex_adapter 1; ex_adapter 2])
    by (repeat constructor).
  split; [discriminate|]. split; [exact Hmods|].
  exact (adapter_fusion_parallel Z.add (ex_block None) "a,b" ["a"; "b"]
           [ex_adapter 1; ex_adapter 2] ex_fusion (ex_adapters None) "b" cfg_before
           ex_hidden ex_input 0 ltac:(discriminate) Hmods eq_refl eq_refl eq_refl eq_refl).
Defined.

Lemma adapter_split_absent_identity_witness :
  adapter_modules (ex_block None) !! "c" = None /\
  adapter_modules (ex_block None) !! "d" = None /\
  adapters (ex_adapters None) !! "c" = Some cfg_after /\
  adapter_split Z.add (ex_block None) (Split [Leaf "c"; Leaf "d"] 7) ex_hidden ex_input 0 =
    ([EvPreparams InSplit "c"], inr ex_hidden).
Proof.
  repeat (split; [reflexivity|]).
  exact (adapter_split_absent_identity Z.add (ex_block None) "c" "d" 7 (ex_adapters None)
           cfg_after ex_hidden ex_input 0 eq_refl eq_refl eq_refl eq_refl).
Defined.

Lemma ex_adapter_lengths c (x r : Tensor (R := Z)) :
  map length r = map length x -> map length (ex_adapter c x r).1 = map length x.
Proof.
  unfold ex_adapter, tensor_add, shift. cbn [fst]. revert r.
  induction x as [|row x IH]; intros [|row' r]; cbn; try discriminate; [reflexivity|].
  intros [= Hrow Hrest]. f_equal; [|apply IH; exact Hrest].
  rewrite length_zip_with, length_map. lia.
Qed.

Lemma adapter_split_keeps_lengths_witness :
  adapter_modules (ex_block None) !! "a" = Some (ex_adapter 1) /\
  adapter_modules (ex_block None) !! "b" = Some (ex_adapter 2) /\
  adapters (ex_adapters None) !! "a" = Some cfg_before /\
  map length (get_adapter_preparams Z.add (ex_block None) cfg_before ex_hidden ex_input).2 =
    map length (get_adapter_preparams Z.add (ex_block None) cfg_before ex_hidden ex_input).1.1 /\
  exists out,
    adapter_split Z.add (ex_block None) (Split [Leaf "a"; Leaf "b"] (-1)) ex_hidden ex_input 0 =
      ([EvPreparams InSplit "a"; EvAdapter "a"; EvAdapter "b"], inr out) /\
    map length out = [3%nat].
Proof.
  repeat (split; [reflexivity|]).
  exact (adapter_split_keeps_lengths Z.add (ex_block None) "a" "b" (ex_adapter 1) (ex_adapter 2)
           (-1) (ex_adapters None) cfg_before ex_hidden ex_input 0
           eq_refl eq_refl eq_refl eq_refl (ex_adapter_lengths 1) (ex_adapter_lengths 2) eq_refl).
Defined.

Local Abbreviation ex_add := (add_adapter ex_settings ex_hidden_size ex_Adapter_init).
Local Abbreviation ex_add_encoder :=
  (BertEncoder_add_adapter ex_settings ex_hidden_size ex_Adapter_init).
Local Abbreviation ex_add_fusion :=
  (add_fusion_layer ex_BertFusion_init ex_common_config_value).

Lemma add_adapter_hosts_witness :
  (ex_add "output_adapter" ex_empty_block "a").2 = None /\
  is_Some (adapter_modules (ex_add "output_adapter" ex_empty_block "a").1 !! "a") /\
  adapter_fusion_layer (ex_add "output_adapter" ex_empty_block "a").1 =
    adapter_fusion_layer ex_empty_block.
Proof.
  assert (Hrun : ex_add "output_adapter" ex_empty_block "a" =
                   ((ex_add "output_adapter" ex_empty_block "a").1, None))
    by (vm_compute; reflexivity).
  destruct (add_adapter_hosts ex_settings ex_hidden_size ex_Adapter_init "output_adapter"
              ex_empty_block "a" _ Hrun) as (Hhosts & _ & Hfusion & _).
  split; [reflexivity|]. split; [|exact Hfusion].
  apply Hhosts. right. exists (ex_adapters (Some (Stack [Leaf "a"]))).
  split; [reflexivity|]. split; [exists cfg_before|]; reflexivity.
Defined.

Lemma add_adapter_zero_reduction_factor_witness :
  config_adapters (config ex_empty_block) = Some (ex_adapters (Some (Stack [Leaf "a"]))) /\
  reduction_factor (ex_settings "b") = 0%Z /\
  ex_add "output_adapter" ex_empty_block "b" = (ex_empty_block, Some RaisedZeroDivisionError) /\
  ex_add "mh_adapter" ex_empty_block "b" = (ex_empty_block, None).
Proof.
  do 2 (split; [reflexivity|]). split.
  - exact (add_adapter_zero_reduction_factor ex_settings ex_hidden_size ex_Adapter_init
             "output_adapter" ex_empty_block "b" _ eq_refl eq_refl).
  - exact (add_adapter_zero_reduction_factor ex_settings ex_hidden_size ex_Adapter_init
             "mh_adapter" ex_empty_block "b" _ eq_refl eq_refl).
Defined.

Lemma ex_encoder_shares_config : shares_config ex_encoder.
Proof. repeat constructor. Qed.

Lemma encoder_add_adapter_atomic_witness :
  shares_config ex_encoder /\
  (ex_add_encoder ex_encoder "b").2 = Some RaisedZeroDivisionError /\
  (ex_add_encoder ex_encoder "b").1 = ex_encoder.
Proof.
  assert (Hrun : ex_add_encoder ex_encoder "b" =
                   ((ex_add_encoder ex_encoder "b").1, Some RaisedZeroDivisionError))
    by (vm_compute; reflexivity).
  split; [exact ex_encoder_shares_config|]. split; [reflexivity|].
  exact (encoder_add_adapter_atomic ex_settings ex_hidden_size ex_Adapter_init ex_encoder _ "b" _
           ex_encoder_shares_config Hrun).
Defined.

Lemma add_adapter_then_forward_witness :
  adapters (ex_adapters (Some (Stack [Leaf "a"]))) !! "a" = Some cfg_before /\
  adapter_modules ex_empty_block !! "a" = None /\
  (ex_add "output_adapter" ex_empty_block "a").2 = None /\
  adapters_forward Z.add (ex_add "output_adapter" ex_empty_block "a").1 ex_hidden ex_input =
    ([EvPreparams InStack "a"; EvAdapter "a"],
     inr [[[1014; 1026]; [1038; 1050]; [1062; 1074]]]%Z).
Proof.
  assert (Hrun : ex_add "output_adapter" ex_empty_block "a" =
                   ((ex_add "output_adapter" ex_empty_block "a").1, None))
    by (vm_compute; reflexivity).
  repeat (split; [reflexivity|]).
  rewrite (add_adapter_then_forward Z.add ex_settings ex_hidden_size ex_Adapter_init
             "output_adapter" ex_empty_block "a" (ex_adapters (Some (Stack [Leaf "a"])))
             cfg_before _ ex_hidden ex_input eq_refl eq_refl eq_refl eq_refl Hrun).
  vm_compute. reflexivity.
Defined.

Lemma add_fusion_layer_then_lookup_witness :
  config_adapters (config (ex_block None)) = Some (ex_adapters None) /\
  ex_common_config_value (ex_adapters None) (split_comma "a,b") "output_adapter" = inr true /\
  call_fusion (ex_add_fusion "output_adapter" (ex_block None) (inr "a,b")).1 (Some "a,b")
              None (torch_stack_permute [ex_hidden; ex_input]) ex_hidden =
    ([EvFusion "a,b"],
     inr (ex_fusion None (torch_stack_permute [ex_hidden; ex_input])
                    (torch_stack_permute [ex_hidden; ex_input]) ex_hidden)) /\
  ex_add_fusion "mh_adapter" (ex_block None) (inr "a,b") =
    (ex_block None,
     Some (RaisedValueError
             "All given adapters must define the same value for config attribute mh_adapter.")).
Proof.
  do 2 (split; [reflexivity|]). split.
  - pose proof (add_fusion_layer_then_lookup ex_BertFusion_init ex_common_config_value
                  "output_adapter" (ex_block None) "a,b" (ex_adapters None) None
                  (torch_stack_permute [ex_hidden; ex_input]) ex_hidden eq_refl) as Hthen.
    cbn zeta in Hthen.
    change (ex_common_config_value (ex_adapters None) (split_comma "a,b") "output_adapter")
      with (@inr Raised bool true) in Hthen.
    destruct Hthen as (_ & Hcall & _). exact Hcall.
  - pose proof (add_fusion_layer_then_lookup ex_BertFusion_init ex_common_config_value
                  "mh_adapter" (ex_block None) "a,b" (ex_adapters None) None
                  (torch_stack_permute [ex_hidden; ex_input]) ex_hidden eq_refl) as Hthen.
    cbn zeta in Hthen.
    change (ex_common_config_value (ex_adapters None) (split_comma "a,b") "mh_adapter")
      with (@inl Raised bool
              (RaisedValueError
                 "All given adapters must define the same value for config attribute mh_adapter."))
      in Hthen.
    destruct Hthen as (He & Hself).
    rewrite (surjective_pairing (ex_add_fusion "mh_adapter" (ex_block None) (inr "a,b"))).
    rewrite He, Hself. reflexivity.
Defined.

Local Abbreviation ex_add_head := (Heads.add_prediction_head (Outputs := Z) (Mask := unit)
                                     (Kwargs := unit)).

Lemma add_prediction_head_refuses_duplicate_witness :
  is_Some (Heads.heads ex_model_with_head !! Heads.name ex_head) /\
  (ex_add_head ex_model_with_head ex_head false).1 = ex_model_with_head /\
  (ex_add_head ex_model_with_head ex_head false).2 =
    Some (RaisedValueError
            "Model already contains a head with name 'ner'. Use overwrite_ok=True to force overwrite.").
Proof.
  assert (Hdup : is_Some (Heads.heads ex_model_with_head !! Heads.name ex_head))
    by (exists ex_head; vm_compute; reflexivity).
  rewrite (HeadsFacts.add_prediction_head_refuses_duplicate ex_model_with_head ex_head Hdup).
  split; [exact Hdup|]. split; reflexivity.
Defined.

Lemma add_prediction_head_registers_witness :
  (Heads.heads ex_model_heads !! Heads.name ex_head = None \/ false = true) /\
  Heads.label2id (Heads.fill_label2id (Heads.heap ex_model_heads (Heads.head_config ex_head))) =
    Some (Some ex_labels) /\
  exists self',
    ex_add_head ex_model_heads ex_head false = (self', None) /\
    Heads._active_head self' = Some "ner" /\
    Heads.config_id2label self' = Some [(0, "LABEL_0"); (1, "LABEL_1"); (2, "LABEL_2")]%Z.
Proof.
  assert (Hfree : Heads.heads ex_model_heads !! Heads.name ex_head = None \/ false = true)
    by (left; reflexivity).
  assert (Hlabels : Heads.label2id
                      (Heads.fill_label2id (Heads.heap ex_model_heads (Heads.head_config ex_head))) =
                    Some (Some ex_labels))
    by (vm_compute; reflexivity).
  split; [exact Hfree|]. split; [exact Hlabels|].
  destruct (HeadsFacts.add_prediction_head_registers ex_model_heads ex_head false ex_labels
              Hfree Hlabels) as (self' & Hrun & _ & _ & _ & Hactive & _ & Hid & _).
  exists self'. split; [exact Hrun|]. split; [exact Hactive|].
  rewrite Hid. vm_compute. reflexivity.
Defined.

Lemma add_prediction_head_choices_override_witness :
  (Heads.heads ex_choice_model !! Heads.name ex_choice_head = None \/ false = true) /\
  (Heads.label2id (Heads.heap ex_choice_model (Heads.head_config ex_choice_head)) = None \/
   Heads.label2id (Heads.heap ex_choice_model (Heads.head_config ex_choice_head)) = Some None) /\
  Heads.num_labels (Heads.heap ex_choice_model (Heads.head_config ex_choice_head)) = Some 3%Z /\
  Heads.num_choices (Heads.heap ex_choice_model (Heads.head_config ex_choice_head)) = Some 2%Z /\
  exists self',
    ex_add_head ex_choice_model ex_choice_head false = (self', None) /\
    Heads.config_label2id self' = Some [("LABEL_0", 0%Z); ("LABEL_1", 1%Z)] /\
    Heads.config_id2label self' = Some [(0%Z, "LABEL_0"); (1%Z, "LABEL_1")].
Proof.
  assert (Hfree : Heads.heads ex_choice_model !! Heads.name ex_choice_head = None \/ false = true)
    by (left; reflexivity).
  assert (Hnone : Heads.label2id (Heads.heap ex_choice_model (Heads.head_config ex_choice_head))
                    = None \/
                  Heads.label2id (Heads.heap ex_choice_model (Heads.head_config ex_choice_head))
                    = Some None)
    by (right; reflexivity).
  split; [exact Hfree|]. split; [exact Hnone|]. do 2 (split; [reflexivity|]).
  destruct (HeadsFacts.add_prediction_head_choices_override ex_choice_model ex_choice_head false
              3%Z 2%Z Hfree Hnone eq_refl eq_refl) as (self' & Hrun & _ & Hl2i & Hi2l).
  exists self'. split; [exact Hrun|]. rewrite Hl2i, Hi2l. split; vm_compute; reflexivity.
Defined.

Lemma add_prediction_head_unlabelled_witness :
  Heads.heads ex_model_heads !! Heads.name ex_bare_head = None /\
  Heads.num_labels (Heads.heap ex_model_heads (Heads.head_config ex_bare_head)) = None /\
  Heads.num_choices (Heads.heap ex_model_heads (Heads.head_config ex_bare_head)) = None /\
  Heads.heads (ex_add_head ex_model_heads ex_bare_head false).1 !! "bare" = Some ex_bare_head /\
  (ex_add_head ex_model_heads ex_bare_head false).2 = Some (RaisedKeyError "label2id").
Proof.
  do 3 (split; [reflexivity|]).
  pose proof (HeadsFacts.add_prediction_head_unlabelled ex_model_heads ex_bare_head
                eq_refl eq_refl eq_refl) as H.
  destruct (ex_add_head ex_model_heads ex_bare_head false) as [self' e].
  destruct H as (Hhead & _ & He).
  change (e = Some (RaisedKeyError "label2id")) in He.
  split; [exact Hhead | exact He].
Defined.

Ltac distinct_items :=
  repeat (constructor;
          [ let Hin := fresh "Hin" in
            intros Hin;
            repeat (apply elem_of_cons in Hin as [Hin|Hin]; [discriminate Hin|]);
            inversion Hin
          | ]);
  constructor.

Lemma get_labels_dict_inverts_witness :
  Heads.heads ex_model_with_head !! "ner" = Some ex_head /\
  Heads.label2id (Heads.heap ex_model_with_head (Heads.head_config ex_head)) =
    Some (Some ex_labels) /\
  NoDup (map fst ex_labels) /\ NoDup (map snd ex_labels) /\
  Heads.get_labels ex_model_with_head (Some "ner") =
    inr (Some ["LABEL_0"; "LABEL_1"; "LABEL_2"]).
Proof.
  assert (Hkeys : NoDup (map fst ex_labels)) by (cbn; distinct_items).
  assert (Hids : NoDup (map snd ex_labels)) by (cbn; distinct_items).
  assert (Hhead : Heads.heads ex_model_with_head !! "ner" = Some ex_head)
    by (vm_compute; reflexivity).
  assert (Hlabels : Heads.label2id (Heads.heap ex_model_with_head (Heads.head_config ex_head)) =
                    Some (Some ex_labels)) by (vm_compute; reflexivity).
  repeat (split; [assumption|]).
  destruct (HeadsFacts.get_labels_dict_inverts ex_model_with_head "ner" ex_head ex_labels
              Hhead Hlabels Hkeys Hids) as (d & _ & _ & Hget).
  exact Hget.
Defined.

Lemma add_prediction_head_then_forward_witness :
  Heads.name ex_head <> "" /\
  (ex_add_head ex_model_heads ex_head false).2 = None /\
  Heads.forward_head ex_model_with_head 41%Z None None true tt = inr 42%Z.
Proof.
  assert (Hname : Heads.name ex_head <> "") by discriminate.
  assert (Hrun : ex_add_head ex_model_heads ex_head false = (ex_model_with_head, None))
    by (vm_compute; reflexivity).
  split; [exact Hname|]. split; [rewrite Hrun; reflexivity|].
  exact (HeadsFacts.add_prediction_head_then_forward ex_model_heads ex_head false
           ex_model_with_head 41%Z None true tt Hname Hrun).
Defined.

Lemma add_prediction_head_consistent_witness :
  Heads_consistent ex_model_heads /\
  Heads_consistent (ex_add_head ex_model_heads ex_head false).1.
Proof.
  assert (Hcons : Heads_consistent ex_model_heads) by reflexivity.
  split; [exact Hcons|].
  exact (HeadsFacts.add_prediction_head_consistent ex_model_heads ex_head false Hcons).
Defined.

Lemma encoder_add_fusion_layer_everywhere_witness :
  shares_config ex_encoder /\
  config_adapters (encoder_config ex_encoder) = Some (ex_adapters (Some (Stack [Leaf "a"]))) /\
  ex_common_config_value (ex_adapters (Some (Stack [Leaf "a"]))) (split_comma "a") "mh_adapter" =
    inr true /\
  ex_common_config_value (ex_adapters (Some (Stack [Leaf "a"]))) (split_comma "a")
                         "output_adapter" = inr true /\
  layer ex_encoder !! 1%nat = Some ex_layer /\
  exists l',
    layer (BertEncoder_add_fusion_layer ex_BertFusion_init ex_common_config_value
             ex_encoder (inr "a")).1 !! 1%nat = Some l' /\
    adapter_fusion_layer (attention_output l') !! "a" = Some ex_fusion /\
    adapter_fusion_layer (output l') !! "a" = Some ex_fusion.
Proof.
  split; [exact ex_encoder_shares_config|]. do 4 (split; [reflexivity|]).
  destruct (encoder_add_fusion_layer_everywhere ex_BertFusion_init ex_common_config_value
              ex_encoder "a" (ex_adapters (Some (Stack [Leaf "a"]))) true true 1%nat ex_layer
              ex_encoder_shares_config eq_refl eq_refl eq_refl eq_refl)
    as (_ & l' & Hl' & Hmh & Hout & _).
  exists l'. split; [exact Hl'|]. split; [exact Hmh | exact Hout].
Defined.

End MoreRuns.
